(** * RatInABox task environments: rewards, reward caches, goals

    A shallow embedding of [ratinabox/contribs/TaskEnvironment.py].

    Conventions of the embedding.
    - Python floats (and ints mixed with them) are exact rationals [Q];
      arithmetic statements use [Qeq] ([==]).
    - Python objects that are shared by reference ([Reward] instances and
      their [history] dictionaries) live in a [store]; lists hold
      references ([loc]), so aliasing and [copy] are visible.
    - A raised exception is a value [Raise e] of the [result] type; the
      state reached before the exception is not observed any further.
    - Code outside this file (NumPy's [exp], the environment's distance
      query, the locomotion of agents, sources of randomness) enters as
      section variables. *)

From Stdlib Require Import QArith Qabs Qminmax Qfield Lqa DecimalString.
From stdpp Require Import gmap strings list fin_maps.

Local Open Scope string_scope.
Local Open Scope list_scope.
Local Open Scope nat_scope.

(** ** Exceptions and results *)

Inductive exn : Set :=
| TypeError | ValueError | KeyError | IndexError
| AttributeError | UnboundLocalError | NotImplementedError.

Inductive result (A : Type) : Type :=
| Ok (a : A)
| Raise (e : exn).
Arguments Ok {A} a.
Arguments Raise {A} e.

Definition result_bind {A B} (f : A → result B) (m : result A) : result B :=
  match m with
  | Ok a => f a
  | Raise e => Raise e
  end.

#[global] Instance result_ret : MRet result := @Ok.
#[global] Instance result_mbind : MBind result := @result_bind.

Definition is_Ok {A} (m : result A) : Prop := ∃ a, m = Ok a.
Definition raises {A} (m : result A) : Prop := ∃ e, m = Raise e.

(** ** Callables

    A Python function taking floats positionally.  Calling it with the
    wrong number of arguments raises [TypeError]. *)

Definition callable : Type := list Q → result Q.

(** [lambda a, x: body] *)
Definition lambda2 (body : Q → Q → Q) : callable :=
  λ args, match args with
          | [a; x] => Ok (body a x)
          | _ => Raise TypeError
          end.

(** [lambda x: body] *)
Definition lambda1 (body : Q → Q) : callable :=
  λ args, match args with
          | [x] => Ok (body x)
          | _ => Raise TypeError
          end.

(** [functools.partial(f, *knobs)] *)
Definition partial (f : callable) (knobs : list Q) : callable :=
  λ args, f (knobs ++ args).

(** ** Rewards *)

Definition loc : Type := nat.

Record Reward : Type := mkReward {
  state : Q;
  dt : Q;
  expire_clock : Q;
  preset : string;
  decay_knobs : list Q;
  decay : callable;
  external_drive : option (unit → Q);
  external_drive_strength : Q;
  history : loc   (* reference to the dict [{'state': [], 'expire_clock': []}] *)
}.

(** The [history] dictionary: the two append-only traces. *)
Record History : Type := mkHistory {
  h_state : list Q;
  h_expire_clock : list Q
}.

Record store : Type := mkStore {
  rewards : gmap loc Reward;
  histories : gmap loc History
}.

Definition alloc_reward (r : Reward) (σ : store) : loc * store :=
  let l := fresh (dom (rewards σ)) in
  (l, mkStore (<[l := r]> (rewards σ)) (histories σ)).

Definition alloc_history (h : History) (σ : store) : loc * store :=
  let l := fresh (dom (histories σ)) in
  (l, mkStore (rewards σ) (<[l := h]> (histories σ))).

Section Presets.

(** [np.exp], outside this repository. *)
Variable np_exp : Q → Q.

(** [Reward.decay_preset] *)
Definition decay_preset (name : string) : option callable :=
  if decide (name = "constant") then Some (lambda2 (λ a x, a))
  else if decide (name = "linear") then Some (lambda2 (λ a x, a * x)%Q)
  else if decide (name = "exponential") then Some (lambda2 (λ a x, a * np_exp x)%Q)
  else if decide (name = "none") then Some (lambda2 (λ a x, 0%Q))
  else None.

(** [Reward.decay_knobs_preset] *)
Definition decay_knobs_preset (name : string) : option (list Q) :=
  if decide (name = "linear") then Some [1%Q]
  else if decide (name = "constant") then Some [1%Q]
  else if decide (name = "exponential") then Some [2%Q]
  else if decide (name = "none") then Some []
  else None.

(** A dictionary subscript: a missing key raises [KeyError]. *)
Definition subscript {A} (d : string → option A) (k : string) : result A :=
  match d k with
  | Some v => Ok v
  | None => Raise KeyError
  end.

(** The arguments of [Reward.__init__] that are not plain floats. *)
Inductive init_state_arg : Type :=
| InitValue (q : Q)
| InitFunction (f : unit → Q).

Inductive expire_clock_arg : Type :=
| ExpireNumber (q : Q)          (* an [int] or a [float] *)
| ExpireNone
| ExpireOther (repr : string).  (* any other object, e.g. a [str] *)

Inductive decay_arg : Type :=
| DecayStr (name : string)
| DecayFunction (f : callable)
| DecayNone.

(** [x or y] on a list [x]: the empty list is falsy. *)
Definition knobs_or (knobs : list Q) (dflt : result (list Q)) : result (list Q) :=
  match knobs with
  | [] => dflt
  | _ :: _ => Ok knobs
  end.

(** [Reward.__init__] *)
Definition Reward_init (init_state : init_state_arg) (dt0 : Q)
    (expire : expire_clock_arg) (dec : decay_arg) (knobs : list Q)
    (drive : option (unit → Q)) (strength : Q) (σ : store)
  : result (loc * store) :=
  let state0 := match init_state with
                | InitValue q => q
                | InitFunction f => f tt
                end in
  let expire0 := match expire with
                 | ExpireNumber q => q
                 | ExpireNone | ExpireOther _ => dt0
                 end in
  '(preset0, knobs0, decay0) ←
    match dec with
    | DecayStr name =>
        knobs0 ← knobs_or knobs (subscript decay_knobs_preset name);
        f ← subscript decay_preset name;
        Ok (name, knobs0, partial f knobs0)
    | DecayFunction f =>
        knobs0 ← knobs_or knobs (subscript decay_knobs_preset "custom");
        Ok ("custom", knobs0, f)
    | DecayNone =>
        knobs0 ← knobs_or knobs (subscript decay_knobs_preset "constant");
        f ← subscript decay_preset "constant";
        Ok ("constant", knobs0, f)
    end;
  let '(h, σ1) := alloc_history (mkHistory [] []) σ in
  Ok (alloc_reward
        (mkReward state0 dt0 expire0 preset0 knobs0 decay0 drive strength h)
        σ1).

End Presets.

(** [Reward.get_delta].  The external drive is a function of no
    argument that the method calls once; the embedding takes it to
    answer the same value at every call. *)
Definition Reward_get_delta (r : Reward) (state_arg : option Q) : result Q :=
  let s := match state_arg with None => state r | Some s => s end in
  match external_drive r with
  | Some drive =>
      let target_gradient := drive tt in
      let strength := external_drive_strength r in
      d ← decay r [s];
      Ok (strength * (target_gradient - s) - d)%Q
  | None =>
      d ← decay r [s];
      Ok (- d)%Q
  end.

Definition history_append (s e : Q) (h : History) : History :=
  mkHistory (h_state h ++ [s]) (h_expire_clock h ++ [e]).

(** [Reward.update], on the object at reference [l].  A reference that
    does not denote a [Reward] has no [update] attribute. *)
Definition Reward_update (σ : store) (l : loc) : result (store * bool) :=
  match rewards σ !! l with
  | None => Raise AttributeError
  | Some r =>
      delta ← Reward_get_delta r None;
      let state' := (state r + delta * dt r)%Q in
      let expire' := (expire_clock r - dt r)%Q in
      let r' := mkReward state' (dt r) expire' (preset r) (decay_knobs r)
                         (decay r) (external_drive r)
                         (external_drive_strength r) (history r) in
      Ok (mkStore (<[l := r']> (rewards σ))
                  (alter (history_append state' expire') (history r)
                         (histories σ)),
          negb (Qle_bool expire' 0))
  end.

(** ** Reward caches *)

Record RewardCache : Type := mkRewardCache {
  cache : list loc;
  verbose : bool
}.

(** [copy(reward)]: a shallow copy.  The new object has the attributes of
    the old one, so it shares the [history] dictionary with it.  A
    reference that denotes no [Reward] of the store is returned as it
    is. *)
Definition copy (σ : store) (l : loc) : loc * store :=
  match rewards σ !! l with
  | Some r => alloc_reward r σ
  | None => (l, σ)
  end.

(** [RewardCache.append] *)
Definition RewardCache_append (σ : store) (c : RewardCache)
    (reward : option loc) (copymode : bool) : store * RewardCache :=
  match reward with
  | Some l =>
      if copymode then
        let '(l', σ') := copy σ l in
        (σ', mkRewardCache (cache c ++ [l']) (verbose c))
      else (σ, mkRewardCache (cache c ++ [l]) (verbose c))
  | None => (σ, c)
  end.

(** [list.remove(x)] on a list of references: the first occurrence goes
    ([Reward] defines no [__eq__], so equality is identity). *)
Fixpoint list_remove_first (x : loc) (l : list loc) : list loc :=
  match l with
  | [] => []
  | y :: l' => if decide (y = x) then l' else y :: list_remove_first x l'
  end.

(** The loop of [RewardCache.update].  Python's list iterator keeps an
    index [i] into the list object and stops once [i] reaches its current
    length; the body removes from that same list.  [fuel] bounds the
    number of iterations ([length cache - i] are enough, see
    [sweep_fuel]). *)
Fixpoint sweep (fuel : nat) (i : nat) (σ : store) (c : list loc)
  : result (store * list loc) :=
  match fuel with
  | O => Ok (σ, c)
  | S fuel' =>
      match c !! i with
      | None => Ok (σ, c)
      | Some reward =>
          '(σ', reward_still_active) ← Reward_update σ reward;
          if reward_still_active : bool
          then sweep fuel' (S i) σ' c
          else sweep fuel' (S i) σ' (list_remove_first reward c)
      end
  end.

(** [RewardCache.update] *)
Definition RewardCache_update (σ : store) (c : RewardCache)
  : result (store * RewardCache) :=
  '(σ', c') ← sweep (length (cache c)) 0 σ (cache c);
  Ok (σ', mkRewardCache c' (verbose c)).

(** [RewardCache.get_total] *)
Definition RewardCache_get_total (σ : store) (c : RewardCache) : result Q :=
  foldl (λ acc l,
           s ← acc;
           match rewards σ !! l with
           | Some r => Ok (s + state r)%Q
           | None => Raise AttributeError
           end)
        (Ok 0%Q) (cache c).

(** [k] successive calls of [RewardCache.update]. *)
Fixpoint RewardCache_updates (k : nat) (σ : store) (c : RewardCache)
  : result (store * RewardCache) :=
  match k with
  | O => Ok (σ, c)
  | S k' =>
      '(σ', c') ← RewardCache_update σ c;
      RewardCache_updates k' σ' c'
  end.

(** ** Agents and positions

    [Agent] is defined in [ratinabox.Agent]; only the attributes this file
    reads or writes are kept.  [ag_reward] is the [RewardCache] that
    [add_agents] attaches to the agent, as its index in the environment's
    [reward_caches] (the two names denote one object). *)

Definition position : Type := list Q.

Record Agent : Type := mkAgent {
  pos : position;
  ag_dt : Q;
  ag_t : Q;
  ag_reward : option nat
}.

(** ** Python and NumPy helpers *)

(** [l[i]] on a list: negative indices count from the end. *)
Definition py_getitem {A} (l : list A) (i : Z) : result A :=
  let n := Z.of_nat (length l) in
  let j := if (i <? 0)%Z then (n + i)%Z else i in
  if (j <? 0)%Z then Raise IndexError
  else match l !! Z.to_nat j with
       | Some x => Ok x
       | None => Raise IndexError
       end.

(** [np.where(bs)[0]]: the indices of the true entries. *)
Fixpoint np_where_from (i : nat) (bs : list bool) : list nat :=
  match bs with
  | [] => []
  | b :: bs' => if b then i :: np_where_from (S i) bs'
                else np_where_from (S i) bs'
  end.

Definition np_where (bs : list bool) : list nat := np_where_from 0 bs.

(** The truth value of a boolean array in an [if]: an empty array is
    false, a one-element array is its element, and a longer one is
    ambiguous.  This is NumPy 1.x, the version the file is written for
    (it uses [np.float_]). *)
Definition np_truth (bs : list bool) : result bool :=
  match bs with
  | [] => Ok false
  | [b] => Ok b
  | _ => Raise ValueError
  end.

Definition Qlt_bool (x y : Q) : bool := negb (Qle_bool y x).

(** The comparison of two arrays of the same length, coordinate by
    coordinate. *)
Fixpoint coordinates_eqb (p q : position) : bool :=
  match p, q with
  | [], [] => true
  | x :: p', y :: q' => Qeq_bool x y && coordinates_eqb p' q'
  | _, _ => false
  end.

(** [np.all(p == q)] on two arrays of one dimension.  NumPy compares
    arrays of the same length coordinate by coordinate, and it
    broadcasts an array of a single coordinate against the other array,
    whatever its length; over an empty result [np.all] holds.  Two
    lengths that cannot be broadcast (different, and neither of them 1)
    give [False]: NumPy before 1.25 warns and answers [False] there,
    later versions raise.  The statements about [find] below are made
    for positions of one common length, where no version differs. *)
Definition position_eqb (p q : position) : bool :=
  match p, q with
  | [x], _ => forallb (Qeq_bool x) q
  | _, [y] => forallb (λ x, Qeq_bool x y) p
  | _, _ => coordinates_eqb p q
  end.

Fixpoint result_mapM {A B} (f : A → result B) (l : list A) : result (list B) :=
  match l with
  | [] => Ok []
  | x :: l' =>
      y ← f x;
      ys ← result_mapM f l';
      Ok (y :: ys)
  end.

(** ** Goals *)

Record SpatialGoal : Type := mkSpatialGoal {
  reward : loc;          (* [self.reward], the reward template *)
  goal_pos : position;
  radius : Q
}.

(** The [agents] argument of [check]. *)
Inductive agents_arg : Type :=
| AgentObject (a : Agent)
| AgentInt (i : Z)
| AgentsNone
| AgentsList (l : list Agent).

(** [GoalCache]; an entry of [goals] is [None] when [reset] appended the
    "no goal" proposal. *)
Record GoalCache : Type := mkGoalCache {
  goals : list (option SpatialGoal);
  mode : string;
  agentmode : string;
  if_sequential__last_acheived : gmap nat Z
}.

(** [{i: -1 for i in range(n)}] *)
Fixpoint minus_ones (n : nat) : gmap nat Z :=
  match n with
  | O => ∅
  | S n' => <[n' := (-1)%Z]> (minus_ones n')
  end.

(** [GoalCache.__init__] *)
Definition GoalCache_init (env_Agents : list Agent) (mode0 agentmode0 : string)
  : GoalCache :=
  mkGoalCache [] mode0 agentmode0 (minus_ones (length env_Agents)).

(** [GoalCache._agentmode_is_interact]: its body is [pass]. *)
Definition GoalCache_agentmode_is_interact (gc : GoalCache)
    (remove_finished : bool) : GoalCache := gc.

(** [GoalCache._handle_agentmode].  The class has no method
    [_agentmode_is_parallel], so that branch fails on the attribute. *)
Definition GoalCache_handle_agentmode (gc : GoalCache)
    (remove_finished : bool) : result GoalCache :=
  if decide (agentmode gc = "interact")
  then Ok (GoalCache_agentmode_is_interact gc remove_finished)
  else if decide (agentmode gc = "parallel") then Raise AttributeError
  else Ok gc.

(** [GoalCache.append], [GoalCache.clear] *)
Definition GoalCache_append (gc : GoalCache) (g : option SpatialGoal) : GoalCache :=
  mkGoalCache (goals gc ++ [g]) (mode gc) (agentmode gc)
              (if_sequential__last_acheived gc).

Definition GoalCache_clear (gc : GoalCache) : GoalCache :=
  mkGoalCache [] (mode gc) (agentmode gc) (if_sequential__last_acheived gc).

(** [SpatialGoal.__eq__] against a position (an array). *)
Definition SpatialGoal_eq (g : SpatialGoal) (other : position) : bool :=
  position_eqb (goal_pos g) other.

(** [cache_goal == goal] in [find], as the condition of the [if].  For a
    [None] entry NumPy compares [None] with every coordinate of the
    array, which gives an array of [False]. *)
Definition find_test (cache_goal : option SpatialGoal) (goal : position)
  : result bool :=
  match cache_goal with
  | Some g => Ok (SpatialGoal_eq g goal)
  | None => np_truth (map (λ _, false) goal)
  end.

(** [GoalCache.find]: the first entry equal to [goal], or [None]. *)
Fixpoint find_in (gs : list (option SpatialGoal)) (goal : position)
  : result (option SpatialGoal) :=
  match gs with
  | [] => Ok None
  | cache_goal :: gs' =>
      b ← find_test cache_goal goal;
      if b : bool then Ok cache_goal else find_in gs' goal
  end.

Definition GoalCache_find (gc : GoalCache) (goal : position)
  : result (option SpatialGoal) :=
  find_in (goals gc) goal.

Section Geometry.

(** [env.get_distances_between___accounting_for_environment(x, y,
    wall_geometry="line_of_sight")], from [ratinabox.Environment]. *)
Variable get_distances : position → position → Q.

(** [SpatialGoal._in_goal_radius] *)
Definition SpatialGoal_in_goal_radius (g : SpatialGoal)
    (p gp : position) : bool :=
  Qlt_bool (get_distances p gp) (radius g).

(** [Goal._agents] *)
Definition Goal_agents (env_Agents : list Agent) (agents : agents_arg)
  : result (list Agent) :=
  match agents with
  | AgentObject a => Ok [a]
  | AgentInt i => a ← py_getitem env_Agents i; Ok [a]
  | AgentsNone => Ok env_Agents
  | AgentsList l => Ok l
  end.

(** [SpatialGoal.check]: the rewards and the indices, within the list
    of agents that was checked, of the agents in the goal radius. *)
Definition SpatialGoal_check (env_Agents : list Agent) (g : SpatialGoal)
    (agents : agents_arg) : result (list loc * list nat) :=
  agents0 ← Goal_agents env_Agents agents;
  let agents_reached_goal :=
    map (λ agent, SpatialGoal_in_goal_radius g (pos agent) (goal_pos g))
        agents0 in
  let rewarded_agents := np_where agents_reached_goal in
  let rewards0 := replicate (length rewarded_agents) (reward g) in
  Ok (rewards0, rewarded_agents).

(** [goal.check(...)] on an entry of the cache; [None] has no [check]. *)
Definition entry_check (env_Agents : list Agent)
    (entry : option SpatialGoal) (agents : agents_arg)
  : result (list loc * list nat) :=
  match entry with
  | Some g => SpatialGoal_check env_Agents g agents
  | None => Raise AttributeError
  end.

(** The accumulators of the sequential branch of [GoalCache.check]. *)
Record seq_acc : Type := mkSeqAcc {
  acc_rewards : list (list loc);
  acc_agents : list nat;
  acc_cache : GoalCache
}.

(** One iteration of [for i, agent in enumerate(self.env.Agents)]. *)
Definition check_sequential_body (env_Agents : list Agent)
    (remove_finished : bool) (acc : seq_acc) (i : nat) (agent : Agent)
  : result seq_acc :=
  let gc := acc_cache acc in
  last ← match if_sequential__last_acheived gc !! i with
          | Some z => Ok z
          | None => Raise KeyError
          end;
  let next := (last + 1)%Z in
  entry ← py_getitem (goals gc) next;
  '(reward0, solution_agents) ← entry_check env_Agents entry (AgentObject agent);
  hit ← np_truth (map (λ a, bool_decide (a = i)) solution_agents);
  let acc1 :=
    if hit : bool then
      mkSeqAcc (acc_rewards acc ++ [reward0]) (acc_agents acc ++ [i])
               (mkGoalCache (goals gc) (mode gc) (agentmode gc)
                  (<[i := next]> (if_sequential__last_acheived gc)))
    else acc in
  gc' ← GoalCache_handle_agentmode (acc_cache acc1) remove_finished;
  Ok (mkSeqAcc (acc_rewards acc1) (acc_agents acc1) gc').

Fixpoint check_sequential_loop (env_Agents : list Agent)
    (remove_finished : bool) (acc : seq_acc) (i : nat)
    (rest : list Agent) : result seq_acc :=
  match rest with
  | [] => Ok acc
  | agent :: rest' =>
      acc' ← check_sequential_body env_Agents remove_finished acc i agent;
      check_sequential_loop env_Agents remove_finished acc' (S i) rest'
  end.

(** [rewards, solution_agents = zip] of the unpacked results: two
    targets, so an empty list of results cannot be unpacked. *)
Definition unpack_zip {A B} (results : list (A * B))
  : result (list A * list B) :=
  match results with
  | [] => Raise ValueError
  | _ => Ok (map fst results, map snd results)
  end.

(** [GoalCache.check].  The nonsequential branch ends in
    [return rewards, agents], where [agents] was never assigned. *)
Definition GoalCache_check (env_Agents : list Agent) (gc : GoalCache)
    (remove_finished : bool)
  : result (list (list loc) * list nat * GoalCache) :=
  if decide (mode gc = "sequential") then
    acc ← check_sequential_loop env_Agents remove_finished
            (mkSeqAcc [] [] gc) 0 env_Agents;
    Ok (acc_rewards acc, acc_agents acc, acc_cache acc)
  else if decide (mode gc = "nonsequential") then
    results ← result_mapM (λ goal, entry_check env_Agents goal AgentsNone)
                          (goals gc);
    '(rewards0, solution_agents) ← unpack_zip results;
    gc' ← GoalCache_handle_agentmode gc remove_finished;
    Raise UnboundLocalError
  else Raise ValueError.

End Geometry.

(** The distance in an open one-dimensional environment. *)
Definition distance_1D (p q : position) : Q :=
  match p, q with
  | [x], [y] => Qabs (x - y)
  | _, _ => 0
  end.

(** ** Task environments *)

(** [gymnasium.spaces.Box], by its bounds. *)
Record Box : Type := mkBox {
  low : list Q;
  high : list Q
}.

(** The attributes of [TaskEnvironment] and [SpatialGoalEnvironment]
    (rendering left out), with [dimensionality] and [extent] of the base
    class [ratinabox.Environment]. *)
Record Env : Type := mkEnv {
  dimensionality : string;
  extent : list Q;
  Agents : list Agent;
  env_t : Q;
  env_dt : Q;
  history_t : list Q;
  teleport_on_reset : bool;
  observation_spaces : gmap string Box;
  action_spaces : gmap string Box;
  reward_caches : list RewardCache;
  agent_names : list string;
  episodes_episode : list nat;
  episodes_start : list Q;
  episodes_end : list Q;
  episodes_duration : list Q;
  episode : nat;
  possible_goals : list SpatialGoal;
  goal_cache : GoalCache;
  n_goals : nat
}.

(** [int(self.dimensionality[0])] *)
Definition dimensionality_D (s : string) : result nat :=
  match s with
  | EmptyString => Raise IndexError
  | String c _ =>
      let n := Ascii.nat_of_ascii c in
      if (48 <=? n)%nat && (n <=? 57)%nat then Ok (n - 48)%nat
      else Raise ValueError
  end.

(** [[extent[i:i+2] for i in np.arange(0, len(extent), 2)]] *)
Fixpoint extent_pairs (ext : list Q) : list (list Q) :=
  match ext with
  | [] => []
  | [x] => [[x]]
  | x :: y :: ext' => [x; y] :: extent_pairs ext'
  end.

(** The unpacking [lows, highs = np.array(...)] of the transposed pairs:
    there must be exactly two rows. *)
Definition lows_highs (ext : list (list Q)) : result (list Q * list Q) :=
  match ext with
  | [] => Raise ValueError
  | _ =>
      if forallb (λ p, (length p =? 2)%nat) ext
      then Ok (map (λ p, default 0%Q (p !! 0%nat)) ext,
               map (λ p, default 0%Q (p !! 1%nat)) ext)
      else Raise ValueError
  end.

(** The [agents] argument of [add_agents]. *)
Inductive add_agents_arg : Type :=
| AddList (l : list Agent)
| AddAgent (a : Agent)
| AddDict (d : list (string * Agent)).

(** The truth value of a Python list: false exactly when it is empty. *)
Definition list_truth {A} (l : list A) : bool :=
  match l with
  | [] => false
  | _ :: _ => true
  end.

(** ["agent_" + str(n)] *)
Definition agent_name (n : nat) : string :=
  "agent_" +:+ NilZero.string_of_uint (Nat.to_uint n).

(** One iteration of the loop "Enlist agents" of [add_agents].  The
    environment holds its agents by value here: the assignments
    [agent.reward = cache] and [agent.t = self.t] are written into the
    entry that is appended.  In Python they are written into the agent
    object, so that an object which is enlisted a second time (already in
    [self.Agents], or passed twice) shows the last ledger and time in each
    of its entries; positions and time steps of entries, the names, the
    boxes and the list of ledgers do not depend on that. *)
Definition enlist (maxvel : Q) (e : Env) (na : string * Agent) : result Env :=
  let '(name, agent) := na in
  D ← dimensionality_D (dimensionality e);
  let action_box := mkBox (replicate D 0%Q) (replicate D maxvel) in
  '(lows, highs) ← lows_highs (extent_pairs (extent e));
  let observation_box := mkBox lows highs in
  let cache0 := mkRewardCache [] false in
  let agent' := mkAgent (pos agent) (ag_dt agent) (env_t e)
                        (Some (length (reward_caches e))) in
  Ok (mkEnv (dimensionality e) (extent e)
            (Agents e ++ [agent'])
            (env_t e) (env_dt e) (history_t e) (teleport_on_reset e)
            (<[name := observation_box]> (observation_spaces e))
            (<[name := action_box]> (action_spaces e))
            (reward_caches e ++ [cache0])
            (agent_names e ++ [name])
            (episodes_episode e) (episodes_start e) (episodes_end e)
            (episodes_duration e) (episode e)
            (possible_goals e) (goal_cache e) (n_goals e)).

Fixpoint enlist_all (maxvel : Q) (e : Env) (nas : list (string * Agent))
  : result Env :=
  match nas with
  | [] => Ok e
  | na :: nas' =>
      e' ← enlist maxvel e na;
      enlist_all maxvel e' nas'
  end.

(** [TaskEnvironment.add_agents].  The test on the time steps is
    [not ([agent.dt == self.dt for agent in agents])]: the negation of a
    list, which holds exactly when the list is empty. *)
Definition TaskEnvironment_add_agents (e : Env) (agents : add_agents_arg)
    (names : option (list string)) (maxvel : Q) : result Env :=
  agents0 ← match agents with
             | AddList l => Ok l
             | AddAgent a => Ok [a]
             | AddDict _ => Raise TypeError
             end;
  let dt_equal := map (λ agent, Qeq_bool (ag_dt agent) (env_dt e)) agents0 in
  if negb (list_truth dt_equal) then Raise NotImplementedError
  else
    let names0 :=
      match names with
      | Some ns => ns
      | None =>
          let start := length (Agents e) in
          map (λ i, agent_name (start + i)) (seq 0 (length agents0))
      end in
    enlist_all maxvel e (zip names0 agents0).

(** [TaskEnvironment.get_observation] *)
Definition TaskEnvironment_get_observation (e : Env) : list (string * position) :=
  zip (agent_names e) (map pos (Agents e)).

(** [TaskEnvironment.write_end_episode] *)
Definition write_end_episode (e : Env) : result Env :=
  start ← py_getitem (episodes_start e) (-1);
  Ok (mkEnv (dimensionality e) (extent e) (Agents e)
            (env_t e) (env_dt e) (history_t e) (teleport_on_reset e)
            (observation_spaces e) (action_spaces e) (reward_caches e)
            (agent_names e)
            (episodes_episode e) (episodes_start e)
            (episodes_end e ++ [env_t e])
            (episodes_duration e ++ [(env_t e - start)%Q])
            (episode e) (possible_goals e) (goal_cache e) (n_goals e)).

(** [TaskEnvironment._current_episode_start] *)
Definition current_episode_start (e : Env) : result Q :=
  match episodes_start e with
  | [] => Ok 0%Q
  | _ => last_end ← py_getitem (episodes_end e) (-1);
         Ok (last_end + env_dt e)%Q
  end.

(** [TaskEnvironment.write_start_episode] *)
Definition write_start_episode (e : Env) : result Env :=
  start ← current_episode_start e;
  Ok (mkEnv (dimensionality e) (extent e) (Agents e)
            (env_t e) (env_dt e) (history_t e) (teleport_on_reset e)
            (observation_spaces e) (action_spaces e) (reward_caches e)
            (agent_names e)
            (episodes_episode e ++ [episode e]) (episodes_start e ++ [start])
            (episodes_end e) (episodes_duration e)
            (episode e) (possible_goals e) (goal_cache e) (n_goals e)).

Definition set_Agents (e : Env) (ags : list Agent) : Env :=
  mkEnv (dimensionality e) (extent e) ags
        (env_t e) (env_dt e) (history_t e) (teleport_on_reset e)
        (observation_spaces e) (action_spaces e) (reward_caches e)
        (agent_names e)
        (episodes_episode e) (episodes_start e) (episodes_end e)
        (episodes_duration e) (episode e)
        (possible_goals e) (goal_cache e) (n_goals e).

Definition set_episode (e : Env) (n : nat) : Env :=
  mkEnv (dimensionality e) (extent e) (Agents e)
        (env_t e) (env_dt e) (history_t e) (teleport_on_reset e)
        (observation_spaces e) (action_spaces e) (reward_caches e)
        (agent_names e)
        (episodes_episode e) (episodes_start e) (episodes_end e)
        (episodes_duration e) n
        (possible_goals e) (goal_cache e) (n_goals e).

Definition set_goal_cache (e : Env) (gc : GoalCache) : Env :=
  mkEnv (dimensionality e) (extent e) (Agents e)
        (env_t e) (env_dt e) (history_t e) (teleport_on_reset e)
        (observation_spaces e) (action_spaces e) (reward_caches e)
        (agent_names e)
        (episodes_episode e) (episodes_start e) (episodes_end e)
        (episodes_duration e) (episode e)
        (possible_goals e) gc (n_goals e).

Definition set_reward_caches (e : Env) (cs : list RewardCache) : Env :=
  mkEnv (dimensionality e) (extent e) (Agents e)
        (env_t e) (env_dt e) (history_t e) (teleport_on_reset e)
        (observation_spaces e) (action_spaces e) cs
        (agent_names e)
        (episodes_episode e) (episodes_start e) (episodes_end e)
        (episodes_duration e) (episode e)
        (possible_goals e) (goal_cache e) (n_goals e).

Definition set_clock (e : Env) (now : Q) : Env :=
  mkEnv (dimensionality e) (extent e) (Agents e)
        now (env_dt e) (history_t e ++ [now]) (teleport_on_reset e)
        (observation_spaces e) (action_spaces e) (reward_caches e)
        (agent_names e)
        (episodes_episode e) (episodes_start e) (episodes_end e)
        (episodes_duration e) (episode e)
        (possible_goals e) (goal_cache e) (n_goals e).

Definition action : Type := list Q.

(** The [actions] argument of [step]: a dict, or a sequence that [_dict]
    zips with the agent names. *)
Inductive actions_arg : Type :=
| ActionsDict (d : list (string * action))
| ActionsSequence (V : list action).

(** What [step] returns; the [info] entry is left opaque. *)
Record step_result : Type := mkStepResult {
  observation : list (string * position);
  reward_totals : list (string * Q);
  terminated : list (string * bool);
  truncated : list (string * bool);
  infos : list (string * unit)
}.

Section Episodes.

(** Collaborators outside this file. *)

(** [agent.update(dt=, drift_velocity=, drift_to_random_strength_ratio=)]
    of [ratinabox.Agent] *)
Variable Agent_update : Agent → Q → action → Q → Agent.

(** The teleport of [TaskEnvironment.reset]: [agent.update()] followed
    by a position sampled from the observation spaces. *)
Variable teleport : Agent → Agent.

(** [np.random.choice(np.arange(n), 1)]: the element of the one-element
    array that is drawn, at the given draw count. *)
Variable random_choice : nat → nat → nat.

(** The conversion of that one-element array to a list index, as NumPy
    defines it. *)
Variable ndarray_index : nat → result Z.

(** The two attributes that [_is_terminal_state] looks up on the goal
    cache: [check_and_remove_satisfied] and [__len__]. *)
Variable check_and_remove_satisfied :
  GoalCache → list Agent → result (list loc * list nat * GoalCache).
Variable GoalCache_len : GoalCache → result nat.

(** [SpatialGoalEnvironment._propose_spatial_goal], at draw count [k]. *)
Definition propose_spatial_goal (e : Env) (k : nat)
  : result (option SpatialGoal) :=
  if list_truth (possible_goals e) then
    let g := random_choice k (length (possible_goals e)) in
    i ← ndarray_index g;
    goal ← py_getitem (possible_goals e) i;
    Ok (Some goal)
  else Ok None.

(** [TaskEnvironment.reset] *)
Definition TaskEnvironment_reset (e : Env) : result Env :=
  e1 ← (if list_truth (episodes_start e) then write_end_episode e else Ok e);
  let e2 := if teleport_on_reset e1
            then set_Agents e1 (map teleport (Agents e1)) else e1 in
  let e3 := set_episode e2 (S (episode e2)) in
  write_start_episode e3.

(** The loop [for g in range(ng)] of [SpatialGoalEnvironment.reset]. *)
Fixpoint reset_loop (e : Env) (goal_locations : option (list position))
    (draws : nat) (g : nat) (count : nat) : result Env :=
  match count with
  | O => Ok e
  | S count' =>
      goal ←
        match goal_locations with
        | None => propose_spatial_goal e (draws + g)
        | Some locs =>
            location ← py_getitem locs (Z.of_nat g);
            found ← GoalCache_find (goal_cache e) location;
            match found with
            | None => Raise ValueError
            | Some goal => Ok (Some goal)
            end
        end;
      reset_loop (set_goal_cache e (GoalCache_append (goal_cache e) goal))
                 goal_locations draws (S g) count'
  end.

(** [SpatialGoalEnvironment.reset]; [draws] counts the random draws made
    so far. *)
Definition SpatialGoalEnvironment_reset (e : Env)
    (goal_locations : option (list position)) (n_objectives : option nat)
    (draws : nat) : result (list (string * position) * Env) :=
  e1 ← TaskEnvironment_reset e;
  let ng := match goal_locations, n_objectives with
            | Some locs, _ => length locs
            | None, Some n => n
            | None, None => n_goals e1
            end in
  let e2 := set_goal_cache e1 (GoalCache_clear (goal_cache e1)) in
  e3 ← reset_loop e2 goal_locations draws 0 ng;
  Ok (TaskEnvironment_get_observation e3, e3).

(** [self.reward_caches[agent].append(reward)] for every pair of
    [zip(rewards, agents)]. *)
Fixpoint deposit (σ : store) (caches : list RewardCache)
    (pairs : list (loc * nat)) : result (store * list RewardCache) :=
  match pairs with
  | [] => Ok (σ, caches)
  | (reward0, agent) :: pairs' =>
      c ← py_getitem caches (Z.of_nat agent);
      let '(σ', c') := RewardCache_append σ c (Some reward0) true in
      deposit σ' (<[agent := c']> caches) pairs'
  end.

(** [SpatialGoalEnvironment._is_terminal_state] *)
Definition SpatialGoalEnvironment_is_terminal_state (e : Env) (σ : store)
  : result (bool * Env * store) :=
  '(rewards0, agents0, gc) ← check_and_remove_satisfied (goal_cache e) (Agents e);
  '(σ', caches) ← deposit σ (reward_caches e) (zip rewards0 agents0);
  n ← GoalCache_len gc;
  let no_objectives_left := bool_decide (n = 0%nat) in
  Ok (no_objectives_left,
      set_reward_caches (set_goal_cache e gc) caches, σ').

(** [SpatialGoalEnvironment.update] *)
Definition SpatialGoalEnvironment_update (e : Env) (σ : store) (draws : nat)
  : result (Env * store) :=
  let e1 := set_clock e (env_t e + env_dt e)%Q in
  '(terminal, e2, σ') ← SpatialGoalEnvironment_is_terminal_state e1 σ;
  if terminal : bool then
    '(_, e3) ← SpatialGoalEnvironment_reset e2 None None draws;
    Ok (e3, σ')
  else Ok (e2, σ').

(** The first loop of [step]: once [dt] is set it is kept for the
    remaining agents. *)
Fixpoint apply_actions (dt0 : option Q) (ratio : Q)
    (pairs : list (Agent * action)) : list Agent :=
  match pairs with
  | [] => []
  | (agent, act) :: pairs' =>
      let dt1 := match dt0 with Some d => d | None => ag_dt agent end in
      Agent_update agent dt1 act ratio
        :: apply_actions (Some dt1) ratio pairs'
  end.

(** The second loop of [step]: [reward_cache.update()] on every cache. *)
Fixpoint update_caches (σ : store) (caches : list RewardCache)
  : result (store * list RewardCache) :=
  match caches with
  | [] => Ok (σ, [])
  | c :: caches' =>
      '(σ1, c1) ← RewardCache_update σ c;
      '(σ2, cs) ← update_caches σ1 caches';
      Ok (σ2, c1 :: cs)
  end.

(** [TaskEnvironment.get_reward] *)
Definition TaskEnvironment_get_reward (e : Env) (σ : store)
  : result (list (string * Q)) :=
  result_mapM
    (λ na : string * Agent,
       match ag_reward na.2 with
       | None => Raise AttributeError
       | Some k =>
           c ← py_getitem (reward_caches e) (Z.of_nat k);
           total ← RewardCache_get_total σ c;
           Ok (na.1, total)
       end)
    (zip (agent_names e) (Agents e)).

(** [TaskEnvironment.step] on a [SpatialGoalEnvironment], whose [update]
    and [_is_terminal_state] the calls [self.update] and
    [self._is_terminal_state] reach.  The returned tuple is built left to
    right: observation, reward totals, then a further evaluation of
    [_is_terminal_state] for the flag.  Agents that receive no action
    keep their entry in [self.Agents] unchanged. *)
Definition TaskEnvironment_step (e : Env) (σ : store) (actions : actions_arg)
    (dt0 : option Q) (drift_to_random_strength_ratio : Q) (draws : nat)
  : result (step_result * Env * store) :=
  let values := match actions with
                | ActionsDict d => map snd d
                | ActionsSequence V => map snd (zip (agent_names e) V)
                end in
  let moved := apply_actions dt0 drift_to_random_strength_ratio
                             (zip (Agents e) values) in
  let e1 := set_Agents e (moved ++ drop (length moved) (Agents e)) in
  '(σ1, caches) ← update_caches σ (reward_caches e1);
  let e2 := set_reward_caches e1 caches in
  '(e3, σ2) ← SpatialGoalEnvironment_update e2 σ1 draws;
  let obs := TaskEnvironment_get_observation e3 in
  totals ← TaskEnvironment_get_reward e3 σ2;
  '(terminal, e4, σ3) ← SpatialGoalEnvironment_is_terminal_state e3 σ2;
  Ok (mkStepResult obs totals
        (map (λ name, (name, terminal)) (agent_names e4))
        (map (λ name, (name, false)) (agent_names e4))
        (zip (agent_names e4) [()]),
      e4, σ3).

End Episodes.

(** Looking up on a [GoalCache] an attribute that the class does not
    define: [GoalCache] has [check], [append], [clear], [find] and the
    agent-mode helpers, and neither [check_and_remove_satisfied] nor
    [__len__]. *)
Definition GoalCache_no_attribute
    (gc : GoalCache) (env_Agents : list Agent)
  : result (list loc * list nat * GoalCache) :=
  Raise AttributeError.

Definition GoalCache_no_len (gc : GoalCache) : result nat :=
  Raise TypeError.

(** ** Concrete objects used by the examples *)

Definition empty_store : store := mkStore ∅ ∅.

(** The drive term of the update rule. *)
Definition drive_term (r : Reward) : Q :=
  match external_drive r with
  | Some drive => external_drive_strength r * (drive tt - state r)
  | None => 0
  end.

(** [reward_default = Reward(1, 0.01, expire_clock=1, decay="linear")], the
    module-level default, as the object it evaluates to. *)
Definition reward_default : Reward :=
  mkReward 1 (1 # 100) 1 "linear" [1%Q]
           (partial (lambda2 (λ a x, a * x)%Q) [1%Q]) None 1 0.

Definition store_default : store :=
  mkStore {[ 0%nat := reward_default ]} {[ 0%nat := mkHistory [] [] ]}.

Section Examples.

Variable np_exp : Q → Q.

(** [Reward(1, 0.01, expire_clock=0.01, decay="linear")]: a reward that
    lives for one tick. *)
Definition one_tick_reward (σ : store) : result (loc * store) :=
  Reward_init np_exp (InitValue 1) (1 # 100) (ExpireNumber (1 # 100))
              (DecayStr "linear") [] None 1 σ.

(** [Reward(1, 0.01, expire_clock=None, decay="linear")] *)
Definition no_clock_reward (σ : store) : result (loc * store) :=
  Reward_init np_exp (InitValue 1) (1 # 100) ExpireNone
              (DecayStr "linear") [] None 1 σ.

(** [Reward(1, 0.01)]: every optional argument at its default. *)
Definition all_defaults_reward (σ : store) : result (loc * store) :=
  Reward_init np_exp (InitValue 1) (1 # 100) ExpireNone
              DecayNone [] None 1 σ.

(** [Reward(1, 0.01, decay="none")]: the preset that "does not decay",
    with its preset knobs. *)
Definition none_preset_reward (σ : store) : result (loc * store) :=
  Reward_init np_exp (InitValue 1) (1 # 100) ExpireNone
              (DecayStr "none") [] None 1 σ.

(** A ledger holding two one-tick rewards. *)
Definition ledger_two_one_tick : result (store * RewardCache) :=
  '(l1, σ1) ← one_tick_reward empty_store;
  '(l2, σ2) ← one_tick_reward σ1;
  Ok (σ2, mkRewardCache [l1; l2] false).

(** A ledger holding a one-tick reward followed by a reward built
    without an expire clock. *)
Definition ledger_one_tick_then_no_clock : result (store * RewardCache) :=
  '(l1, σ1) ← one_tick_reward empty_store;
  '(l2, σ2) ← no_clock_reward σ1;
  Ok (σ2, mkRewardCache [l1; l2] false).

End Examples.

(** Two agents standing on the goal position [0.5] of a one-dimensional
    environment, and a third one away from it. *)
Definition agent_at (x : Q) : Agent := mkAgent [x] (1 # 100) 0 None.

Definition goal_G : SpatialGoal := mkSpatialGoal 0 [1 # 2] (1 # 10).
Definition goal_H : SpatialGoal := mkSpatialGoal 0 [9 # 10] (1 # 10).

Definition two_agents_on_G : list Agent := [agent_at (1 # 2); agent_at (1 # 2)].

Definition cache_sequential_interact (gs : list SpatialGoal) (ags : list Agent)
  : GoalCache :=
  mkGoalCache (map Some gs) "sequential" "interact" (minus_ones (length ags)).

(** A one-dimensional environment with time step [0.01], no agents yet,
    and [goal_G] as its only registered candidate goal. *)
Definition env_1D : Env :=
  mkEnv "1D" [0%Q; 1%Q] [] 0 (1 # 100) [] false ∅ ∅ [] [] [] [] [] [] 0
        [goal_G] (mkGoalCache [] "sequential" "interact" ∅) 1.

(** An agent whose time step is [0.02]. *)
Definition slow_agent : Agent := mkAgent [1 # 2] (1 # 50) 0 None.

(** A second goal whose radius also covers the position [0.5]. *)
Definition goal_G2 : SpatialGoal := mkSpatialGoal 0 [11 # 20] (1 # 10).

(** A one-dimensional environment with one enlisted agent standing at
    [0.5], an empty ledger, and a sequential goal cache holding [goal_G]
    and then [goal_G2]. *)
Definition env_two_goals : Env :=
  mkEnv "1D" [0%Q; 1%Q]
        [mkAgent [1 # 2] (1 # 100) 0 (Some 0)]
        0 (1 # 100) [] false ∅ ∅
        [mkRewardCache [] false] ["agent_0"] [0] [0%Q] [] [] 1
        [goal_G; goal_G2]
        (mkGoalCache [Some goal_G; Some goal_G2] "sequential" "interact"
                     (minus_ones 1))
        2.

(** ** Predicates used in the statements *)

(** The decay law of a reward evaluates on every state. *)
Definition decay_total (r : Reward) : Prop :=
  ∀ s, ∃ d, decay r [s] = Ok d.

(** The [expire_clock] argument is not an [int] or a [float]. *)
Definition not_a_number (expire : expire_clock_arg) : Prop :=
  match expire with
  | ExpireNumber _ => False
  | ExpireNone | ExpireOther _ => True
  end.

(** The cursors after a pass, relative to before: every cursor is
    unchanged, except that the cursor of agent [0] may have advanced by
    one onto an index of the goal list. *)
Definition cursor_step (gs : list (option SpatialGoal))
    (before after : gmap nat Z) : Prop :=
  after = before ∨
  ∃ z, before !! 0 = Some z ∧ after = <[0 := (z + 1)%Z]> before ∧
       is_Ok (py_getitem gs (z + 1)%Z).

(** ** Further functions of the file *)

(** [n] successive calls of [Reward.update] on one reward, the returned
    flags dropped. *)
Fixpoint Reward_updates (n : nat) (σ : store) (l : loc) : result store :=
  match n with
  | O => Ok σ
  | S n' =>
      '(σ', _) ← Reward_update σ l;
      Reward_updates n' σ' l
  end.

(** [q ** n] for a natural exponent. *)
Fixpoint Qpow (q : Q) (n : nat) : Q :=
  match n with
  | O => 1
  | S n' => q * Qpow q n'
  end.

(** The loop of [Reward.plot_theoretical_reward]: every pass appends
    [rewards[-1] + self.get_delta(state=rewards[-1]) * self.dt]. *)
Fixpoint theoretical_loop (r : Reward) (last : Q) (count : nat)
  : result (list Q) :=
  match count with
  | O => Ok []
  | S count' =>
      delta ← Reward_get_delta r (Some last);
      let v := (last + delta * dt r)%Q in
      rest ← theoretical_loop r v count';
      Ok (v :: rest)
  end.

(** The list [rewards] that [Reward.plot_theoretical_reward] builds
    before it plots; [n_timesteps] is the length of
    [np.arange(timerange[0], timerange[1], self.dt)], and the loop runs
    over [timesteps[1:]]. *)
Definition theoretical_rewards (r : Reward) (n_timesteps : nat)
  : result (list Q) :=
  rest ← theoretical_loop r (state r) (n_timesteps - 1);
  Ok (state r :: rest).

(** The value of a result, or a default when it is an exception. *)
Definition ok_or {A} (m : result A) (d : A) : A :=
  match m with
  | Ok a => a
  | Raise _ => d
  end.

(** [Reward(1, 0.01, expire_clock=0.01, decay="linear")] as an object, and
    a store that holds two of them. *)
Definition one_tick_object (h : loc) : Reward :=
  mkReward 1 (1 # 100) (1 # 100) "linear" [1%Q]
           (partial (lambda2 (λ a x, a * x)%Q) [1%Q]) None 1 h.

Definition store_two_one_tick : store :=
  mkStore (<[1 := one_tick_object 1]> {[ 0 := one_tick_object 0 ]})
          (<[1 := mkHistory [] []]> {[ 0 := mkHistory [] [] ]}).

(** A reward that the coming update leaves active: its decay law
    evaluates and its expire clock exceeds [dt]. *)
Definition stays_active (σ : store) (l : loc) : Prop :=
  ∃ r, rewards σ !! l = Some r ∧ decay_total r ∧
       (0 < expire_clock r - dt r)%Q.

(** The reward [r'] is the reward [r] after one update. *)
Definition updated_once (r r' : Reward) : Prop :=
  expire_clock r' = (expire_clock r - dt r)%Q ∧
  ∃ d, decay r [state r] = Ok d ∧
       (state r' - state r == (drive_term r - d) * dt r)%Q.

(** [np.ptp]: the spread of a non-empty array. *)
Definition np_ptp (l : list Q) : result Q :=
  match l with
  | [] => Raise ValueError
  | x :: l' => Ok (foldl Qmax x l' - foldl Qmin x l')%Q
  end.

(** [SpatialGoal.__init__].  The positional arguments after the
    environment go on to [Goal.__init__], whose second parameter is the
    reward; the keyword [reward] is a parameter of
    [SpatialGoal.__init__] itself, which the body never reads, so
    [Goal.__init__] falls back on the module-level default
    [reward_default]. *)
Definition SpatialGoal_init (default_reward : loc) (env_dx : Q)
    (env_extent : list Q) (positional : list loc) (reward_kw : option loc)
    (goal_pos0 : position) (goal_radius : option Q) : result SpatialGoal :=
  reward0 ← match positional with
             | [] => Ok default_reward
             | [r] => Ok r
             | _ => Raise TypeError
             end;
  radius0 ← match goal_radius with
             | Some rad => Ok rad
             | None =>
                 spread ← np_ptp env_extent;
                 Ok (Qmin (env_dx * 10) (spread / 10))
             end;
  Ok (mkSpatialGoal reward0 goal_pos0 radius0).

(** Two positions with the same coordinates. *)
Definition same_position (p q : position) : Prop := Forall2 Qeq p q.

(** The first goal of a list that equals a position, with the goals
    before it that do not. *)
Definition first_match (gs : list SpatialGoal) (p : position) (k : nat)
    (g : SpatialGoal) : Prop :=
  gs !! k = Some g ∧ SpatialGoal_eq g p = true ∧
  ∀ j g', j < k → gs !! j = Some g' → SpatialGoal_eq g' p = false.


(** The number of goals that [reset] sets. *)
Definition goals_to_set (e : Env) (goal_locations : option (list position))
    (n_objectives : option nat) : nat :=
  match goal_locations, n_objectives with
  | Some locs, _ => length locs
  | None, Some n => n
  | None, None => n_goals e
  end.


(** NumPy's conversion of an array of one dimension to an index: it is
    refused. *)
Definition ndarray_index_refused (k : nat) : result Z := Raise TypeError.


(** The agents that [add_agents] appends for the agents [ags]: the
    clock of the environment and the ledgers [k], [k+1], ... *)
Fixpoint enlisted (now : Q) (k : nat) (ags : list Agent) : list Agent :=
  match ags with
  | [] => []
  | a :: ags' =>
      mkAgent (pos a) (ag_dt a) now (Some k) :: enlisted now (S k) ags'
  end.

(** ** Construction of a [SpatialGoalEnvironment] *)

(** [s.split(sep)] for a one-character separator. *)
Fixpoint split_on (sep : Ascii.ascii) (s : string) : list string :=
  match s with
  | EmptyString => [EmptyString]
  | String c s' =>
      if Ascii.eqb c sep then EmptyString :: split_on sep s'
      else match split_on sep s' with
           | [] => [String c EmptyString]
           | piece :: pieces => String c piece :: pieces
           end
  end.

(** The character ['_']. *)
Definition underscore : Ascii.ascii := Ascii.ascii_of_nat 95.

(** The argument [possible_goal_pos]: a string, or a list (an array) of
    positions. *)
Inductive possible_goal_pos_arg : Type :=
| PossibleString (s : string)
| PossibleList (l : list position).

(** The keywords kept in [self.goalkws] and passed to every
    [SpatialGoal]. *)
Record goalkws_dict : Type := mkGoalkws {
  kw_reward : option loc;
  kw_goal_radius : option Q
}.

(** A call [GoalCache(...)]: [env] is a required parameter of
    [GoalCache.__init__]. *)
Definition GoalCache_new (env_arg : option (list Agent))
    (mode0 agentmode0 : string) : result GoalCache :=
  match env_arg with
  | Some env_Agents => Ok (GoalCache_init env_Agents mode0 agentmode0)
  | None => Raise TypeError
  end.

(** The rows of [np.array(columns).T]: one position per sample.  Without
    columns the array has no rows. *)
Definition transpose_columns (n : nat) (columns : list (list Q))
  : list position :=
  match columns with
  | [] => []
  | _ =>
      map (λ k, map (λ column : list Q, default 0%Q (column !! k)) columns)
          (seq 0 n)
  end.

Section Construction.

(** The builtin [int] on a string, and [np.random.random(n)] for the
    coordinate axis [i]. *)
Variable py_int : string → result Z.
Variable np_random : nat → nat → list Q.

Variable teleport : Agent → Agent.
Variable random_choice : nat → nat → nat.
Variable ndarray_index : nat → result Z.

(** The random positions of the branch ['random_n']: for every pair of
    the extent, [np.random.random(n)] (which refuses a negative [n])
    scaled into the pair. *)
Fixpoint random_columns (n : Z) (i : nat) (ext : list (list Q))
  : result (list (list Q)) :=
  match ext with
  | [] => Ok []
  | pair_i :: ext' =>
      samples ← (if (n <? 0)%Z then Raise ValueError
                 else Ok (np_random i (Z.to_nat n)));
      hi ← py_getitem pair_i 1;
      lo ← py_getitem pair_i 0;
      columns ← random_columns n (S i) ext';
      Ok (map (λ u, u * (hi - lo) + lo)%Q samples :: columns)
  end.

(** [SpatialGoalEnvironment._init_poss_goal_positions].  [attr_goalkws]
    is the attribute [self.goalkws] at the time of the call, if the
    object has one; the list comprehension reads it once per position. *)
Definition init_poss_goal_positions (default_reward : loc) (env_dx : Q)
    (env_extent : list Q) (attr_goalkws : option goalkws_dict)
    (possible_goal_position : possible_goal_pos_arg)
  : result (list SpatialGoal) :=
  positions ←
    match possible_goal_position with
    | PossibleString s =>
        if String.prefix "random" s then
          piece ← py_getitem (split_on underscore s) 1;
          n ← py_int piece;
          columns ← random_columns n 0 (extent_pairs env_extent);
          Ok (transpose_columns (Z.to_nat n) columns)
        else Raise ValueError
    | PossibleList l => Ok l
    end;
  result_mapM
    (λ pos0,
       kws ← match attr_goalkws with
              | Some kws => Ok kws
              | None => Raise AttributeError
              end;
       SpatialGoal_init default_reward env_dx env_extent []
                        (kw_reward kws) pos0 (kw_goal_radius kws))
    positions.

(** [SpatialGoalEnvironment.__init__], after the base-class constructor
    has set [dimensionality], [extent] and [dx] and
    [TaskEnvironment.__init__] its own attributes.  The goal cache is
    made by the call [GoalCache()], without arguments.  Only after it
    does the body assign [self.goalkws], from [reward] and [goalkws];
    the environment record keeps no such attribute, so the two
    arguments do not appear in the result. *)
Definition SpatialGoalEnvironment_init (default_reward : loc)
    (dimensionality0 : string) (env_extent : list Q) (env_dx : Q)
    (dt0 : Q) (teleport_on_reset0 : bool)
    (attr_goalkws : option goalkws_dict)
    (reward_arg : loc) (goalkws_arg : goalkws_dict)
    (possible_goal_pos : possible_goal_pos_arg)
    (current_goal_state : option position) (n_goals0 : nat)
  : result Env :=
  possible_goals0 ← init_poss_goal_positions default_reward env_dx
                      env_extent attr_goalkws possible_goal_pos;
  goal_cache0 ← GoalCache_new None "parallel" "any";
  let e := mkEnv dimensionality0 env_extent [] 0 dt0 [] teleport_on_reset0
                 ∅ ∅ [] [] [] [] [] [] 0
                 possible_goals0 goal_cache0 n_goals0 in
  match current_goal_state with
  | None =>
      '(_, e') ← SpatialGoalEnvironment_reset teleport random_choice
                   ndarray_index e None None 0;
      Ok e'
  | Some _ => Ok e
  end.

End Construction.

(** * Properties *)

(** ** The result monad *)

Lemma bind_Ok_inv {A B} (m : result A) (f : A → result B) (b : B) :
  (m ≫= f) = Ok b → ∃ a, m = Ok a ∧ f a = Ok b.
Proof.
  destruct m as [a|e]; simpl; intros H.
  - exists a. split; [reflexivity | exact H].
  - discriminate H.
Qed.

Lemma Ok_not_raises {A} (m : result A) (a : A) : m = Ok a → ¬ raises m.
Proof. intros -> [e He]. discriminate He. Qed.

Ltac inv_bind H :=
  let a := fresh "a" in
  let Ha := fresh "Ha" in
  apply bind_Ok_inv in H; destruct H as (a & Ha & H).

(** ** Reward.update *)

Lemma Reward_get_delta_value (r : Reward) (d : Q) :
  decay r [state r] = Ok d →
  ∃ delta, Reward_get_delta r None = Ok delta ∧ (delta == drive_term r - d)%Q.
Proof.
  intros Hd. unfold Reward_get_delta, drive_term.
  destruct (external_drive r) as [drive|]; rewrite Hd; simpl;
    eexists; (split; [reflexivity | ring]).
Qed.

(** What a successful [update] does to the store. *)
Lemma Reward_update_Ok_inv (σ σ' : store) (l : loc) (b : bool) :
  Reward_update σ l = Ok (σ', b) →
  ∃ r delta,
    rewards σ !! l = Some r ∧
    Reward_get_delta r None = Ok delta ∧
    let r' := mkReward (state r + delta * dt r) (dt r)
                       (expire_clock r - dt r) (preset r) (decay_knobs r)
                       (decay r) (external_drive r)
                       (external_drive_strength r) (history r) in
    rewards σ' = <[l := r']> (rewards σ) ∧
    histories σ' = alter (history_append (state r') (expire_clock r'))
                         (history r) (histories σ) ∧
    b = negb (Qle_bool (expire_clock r') 0).
Proof.
  unfold Reward_update. intros H.
  destruct (rewards σ !! l) as [r|] eqn:Hl; [|discriminate H].
  inv_bind H. injection H as <- <-.
  exists r, a. repeat split; try reflexivity; assumption.
Qed.

(** [update] writes to the object it is called on and to no other. *)
Lemma Reward_update_other (σ σ' : store) (l l0 : loc) (b : bool) :
  Reward_update σ l = Ok (σ', b) → l0 ≠ l →
  rewards σ' !! l0 = rewards σ !! l0.
Proof.
  intros H Hne. apply Reward_update_Ok_inv in H.
  destruct H as (r & delta & _ & _ & Hr & _). simpl in Hr.
  rewrite Hr. apply lookup_insert_ne. congruence.
Qed.

Lemma Qle_bool_false_lt (x : Q) : negb (Qle_bool x 0) = true ↔ (0 < x)%Q.
Proof.
  rewrite negb_true_iff. split.
  - intros H. apply Qnot_le_lt. intros Hle.
    apply Qle_bool_iff in Hle. congruence.
  - intros H. destruct (Qle_bool x 0) eqn:E; [|reflexivity].
    apply Qle_bool_iff in E. exfalso. exact (Qlt_not_le _ _ H E).
Qed.

(** The update rule where it applies.  One call of [Reward.update] on a
    reward whose decay law evaluates on its state adds
    [(drive_term - decay(state)) * dt] to the state, where the drive
    term is [external_drive_strength * (external_drive() - state)] with
    an external drive and [0] without one; it subtracts [dt] from the
    expire clock; and it returns true exactly when the new expire clock
    is strictly positive. *)
Lemma Reward_update_contract (σ : store) (l : loc) (r : Reward) (d : Q) :
  rewards σ !! l = Some r →
  decay r [state r] = Ok d →
  ∃ σ' r' b,
    Reward_update σ l = Ok (σ', b) ∧
    rewards σ' !! l = Some r' ∧
    (state r' - state r == (drive_term r - d) * dt r)%Q ∧
    (expire_clock r' == expire_clock r - dt r)%Q ∧
    (b = true ↔ (0 < expire_clock r')%Q).
Proof.
  intros Hl Hd.
  destruct (Reward_get_delta_value r d Hd) as (delta & Hdelta & Heq).
  unfold Reward_update. rewrite Hl, Hdelta. simpl.
  eexists _, _, _. split; [reflexivity|]. simpl.
  split; [apply lookup_insert_eq|]. simpl.
  split; [rewrite Heq; ring|].
  split; [reflexivity|].
  apply Qle_bool_false_lt.
Qed.

(** C1, at the rewards [Reward(1, 0.01)] and
    [Reward(1, 0.01, decay="none")].  Both are constructed without
    error, with state [1] and expire clock [0.01], and on both the first
    [update] raises [TypeError] instead of changing the state: with
    [decay=None] the constructor stores the two-argument preset
    [lambda a, x: a] as it is, and with the preset ["none"] it binds the
    empty list of preset knobs, so [get_delta] calls a function of two
    arguments with the state alone. *)
Theorem C1_update_raises_on_default_and_none_decay (np_exp : Q → Q) :
  (∃ l σ r,
     all_defaults_reward np_exp empty_store = Ok (l, σ) ∧
     rewards σ !! l = Some r ∧
     state r = 1%Q ∧ expire_clock r = (1 # 100)%Q ∧ preset r = "constant" ∧
     Reward_update σ l = Raise TypeError) ∧
  (∃ l σ r,
     none_preset_reward np_exp empty_store = Ok (l, σ) ∧
     rewards σ !! l = Some r ∧
     state r = 1%Q ∧ expire_clock r = (1 # 100)%Q ∧ preset r = "none" ∧
     Reward_update σ l = Raise TypeError).
Proof.
  split; eexists _, _, _;
    (split; [vm_compute; reflexivity|]);
    (split; [vm_compute; reflexivity|]);
    repeat split.
Qed.

(** ** RewardCache.update *)

Lemma list_remove_first_length (x : loc) (c : list loc) :
  length (list_remove_first x c) ≤ length c.
Proof.
  induction c as [|y c IH]; simpl; [lia|].
  destruct (decide (y = x)); simpl; lia.
Qed.

(** The iterator of the sweep stops by itself: past [length c - i]
    iterations more fuel changes nothing. *)
Lemma sweep_fuel (fuel i : nat) (σ : store) (c : list loc) :
  length c - i ≤ fuel → sweep (S fuel) i σ c = sweep fuel i σ c.
Proof.
  revert i σ c. induction fuel as [|fuel IH]; intros i σ c Hlen.
  - simpl. rewrite lookup_ge_None_2 by lia. reflexivity.
  - change (sweep (S (S fuel)) i σ c) with
      (match c !! i with
       | None => Ok (σ, c)
       | Some reward =>
           '(σ', active) ← Reward_update σ reward;
           if active : bool then sweep (S fuel) (S i) σ' c
           else sweep (S fuel) (S i) σ' (list_remove_first reward c)
       end).
    change (sweep (S fuel) i σ c) with
      (match c !! i with
       | None => Ok (σ, c)
       | Some reward =>
           '(σ', active) ← Reward_update σ reward;
           if active : bool then sweep fuel (S i) σ' c
           else sweep fuel (S i) σ' (list_remove_first reward c)
       end).
    destruct (c !! i) as [reward|]; [|reflexivity].
    destruct (Reward_update σ reward) as [[σ' active]|e]; [|reflexivity].
    simpl. destruct active.
    + apply IH. lia.
    + apply IH. pose proof (list_remove_first_length reward c). lia.
Qed.

(** A ledger that holds a single reward: the sweep updates it and keeps
    it exactly when it is still active. *)
Lemma RewardCache_update_single (σ : store) (l : loc) (v : bool) :
  RewardCache_update σ (mkRewardCache [l] v) =
  '(σ', active) ← Reward_update σ l;
  Ok (σ', mkRewardCache (if active : bool then [l] else []) v).
Proof.
  unfold RewardCache_update. simpl.
  destruct (Reward_update σ l) as [[σ' active]|e]; [|reflexivity].
  simpl. destruct active; simpl.
  - reflexivity.
  - destruct (decide (l = l)); [reflexivity | congruence].
Qed.

Lemma Reward_update_total (σ : store) (l : loc) (r : Reward) :
  rewards σ !! l = Some r → decay_total r →
  ∃ σ' r',
    Reward_update σ l = Ok (σ', negb (Qle_bool (expire_clock r - dt r) 0)) ∧
    rewards σ' !! l = Some r' ∧
    decay r' = decay r ∧ dt r' = dt r ∧
    expire_clock r' = (expire_clock r - dt r)%Q.
Proof.
  intros Hl Htot. destruct (Htot (state r)) as [d Hd].
  destruct (Reward_get_delta_value r d Hd) as (delta & Hdelta & _).
  unfold Reward_update. rewrite Hl, Hdelta. simpl.
  eexists _, _. split; [reflexivity|]. simpl.
  split; [apply lookup_insert_eq|]. simpl. auto.
Qed.

(** In a ledger of its own, a reward whose expire clock is [(m+1) * dt]
    with [dt > 0] is still held after each of the first [m] sweeps and is
    gone after sweep [m+1].  This is a statement of exact arithmetic:
    repeated subtraction of [dt] in binary floating point need not
    arrive at [0] after [m+1] steps. *)
Lemma single_reward_lifetime (m : nat) :
  ∀ (σ : store) (l : loc) (v : bool) (r : Reward),
    rewards σ !! l = Some r → decay_total r → (0 < dt r)%Q →
    (expire_clock r == inject_Z (Z.of_nat (S m)) * dt r)%Q →
    (∀ j, j ≤ m →
       ∃ σj, RewardCache_updates j σ (mkRewardCache [l] v)
             = Ok (σj, mkRewardCache [l] v)) ∧
    (∃ σk, RewardCache_updates (S m) σ (mkRewardCache [l] v)
           = Ok (σk, mkRewardCache [] v)).
Proof.
  induction m as [|m IH]; intros σ l v r Hl Htot Hdt Hclock.
  - destruct (Reward_update_total σ l r Hl Htot) as (σ' & r' & Hu & _).
    assert (Hb : negb (Qle_bool (expire_clock r - dt r) 0) = false).
    { apply negb_false_iff, Qle_bool_iff. rewrite Hclock.
      change (inject_Z (Z.of_nat 1)) with 1%Q. ring_simplify. apply Qle_refl. }
    rewrite Hb in Hu. split.
    + intros j Hj. assert (j = 0%nat) as -> by lia. eexists. reflexivity.
    + exists σ'. simpl. rewrite RewardCache_update_single, Hu. reflexivity.
  - destruct (Reward_update_total σ l r Hl Htot)
      as (σ' & r' & Hu & Hl' & Hdec & Hdt' & Hclock').
    assert (Hnext : (expire_clock r - dt r
                     == inject_Z (Z.of_nat (S m)) * dt r)%Q).
    { rewrite Hclock. rewrite (Nat2Z.inj_succ (S m)).
      unfold Z.succ. rewrite inject_Z_plus. ring. }
    assert (Hb : negb (Qle_bool (expire_clock r - dt r) 0) = true).
    { apply Qle_bool_false_lt. rewrite Hnext.
      apply Qmult_lt_0_compat; [|exact Hdt].
      change 0%Q with (inject_Z 0). rewrite <- Zlt_Qlt. lia. }
    rewrite Hb in Hu.
    assert (Htot' : decay_total r').
    { intros s. rewrite Hdec. apply Htot. }
    destruct (IH σ' l v r' Hl' Htot') as [Hkeep Hgone].
    { rewrite Hdt'. exact Hdt. }
    { rewrite Hclock', Hdt'. exact Hnext. }
    split.
    + intros [|j] Hj; [eexists; reflexivity|].
      destruct (Hkeep j) as [σj Hσj]; [lia|].
      exists σj. simpl. rewrite RewardCache_update_single, Hu. exact Hσj.
    + destruct Hgone as [σk Hσk]. exists σk.
      change (RewardCache_updates (S (S m)) σ (mkRewardCache [l] v)) with
        ('(σ1, c1) ← RewardCache_update σ (mkRewardCache [l] v);
         RewardCache_updates (S m) σ1 c1).
      rewrite RewardCache_update_single, Hu. exact Hσk.
Qed.

(** When no reference occurs twice, [list.remove] deletes at the index
    where the reference stands. *)
Lemma list_remove_first_delete (c : list loc) :
  ∀ (i : nat) (x : loc),
    NoDup c → c !! i = Some x → list_remove_first x c = delete i c.
Proof.
  induction c as [|y c IH]; intros i x Hnd Hi; [discriminate Hi|].
  apply NoDup_cons in Hnd. destruct Hnd as [Hy Hnd].
  simpl. destruct (decide (y = x)) as [->|Hne].
  - destruct i as [|i]; [reflexivity|].
    simpl in Hi. exfalso. apply Hy. apply list_elem_of_lookup. eauto.
  - destruct i as [|i]; simpl in Hi; [congruence|].
    simpl. f_equal. apply IH; assumption.
Qed.

(** The sweep never comes back: an entry at an index that the iterator
    has passed is not updated by the rest of the sweep and stays in the
    ledger. *)
Lemma sweep_keeps_passed_entries (fuel : nat) :
  ∀ (i : nat) (σ σ' : store) (c c' : list loc) (j : nat) (l : loc),
    NoDup c → sweep fuel i σ c = Ok (σ', c') →
    j < i → c !! j = Some l →
    rewards σ' !! l = rewards σ !! l ∧ c' !! j = Some l.
Proof.
  induction fuel as [|fuel IH]; intros i σ σ' c c' j l Hnd H Hji Hj.
  - injection H as <- <-. auto.
  - simpl in H. destruct (c !! i) as [reward0|] eqn:Hi.
    + inv_bind H. destruct a as [σ1 active]. simpl in H.
      assert (Hne : l ≠ reward0).
      { intros ->. pose proof (NoDup_lookup c i j reward0 Hnd Hi Hj). lia. }
      pose proof (Reward_update_other _ _ _ _ _ Ha Hne) as Hsame.
      destruct active.
      * destruct (IH (S i) σ1 σ' c c' j l Hnd H) as [Hr Hc]; [lia|exact Hj|].
        split; [congruence | exact Hc].
      * rewrite (list_remove_first_delete c i reward0 Hnd Hi) in H.
        destruct (IH (S i) σ1 σ' (delete i c) c' j l) as [Hr Hc];
          [ exact (sublist_NoDup _ _ Hnd (sublist_delete c i))
          | exact H | lia
          | rewrite list_lookup_delete_lt by lia; exact Hj | ].
        split; [congruence | exact Hc].
    + injection H as <- <-. auto.
Qed.

(** The entry that follows an evicted entry is skipped: when the first
    reward of a ledger reports inactive, the second one comes out of the
    sweep as it went in, not updated and still held. *)
Lemma sweep_skips_entry_after_evicted (σ σ1 σ' : store) (l1 l2 : loc)
    (rest : list loc) (v : bool) (c' : RewardCache) :
  NoDup (l1 :: l2 :: rest) →
  Reward_update σ l1 = Ok (σ1, false) →
  RewardCache_update σ (mkRewardCache (l1 :: l2 :: rest) v) = Ok (σ', c') →
  rewards σ' !! l2 = rewards σ !! l2 ∧ cache c' !! 0 = Some l2.
Proof.
  intros Hnd Hu H. unfold RewardCache_update in H. simpl in H.
  rewrite Hu in H. simpl in H.
  destruct (decide (l1 = l1)) as [_|Hn]; [|congruence].
  inv_bind H. destruct a as [σ2 c2]. simpl in H. injection H as <- <-.
  simpl. apply NoDup_cons in Hnd. destruct Hnd as [Hl1 Hnd].
  destruct (sweep_keeps_passed_entries (S (length rest)) 1 σ1 σ2
              (l2 :: rest) c2 0 l2 Hnd Ha)
    as [Hr Hc]; [lia | reflexivity |].
  split; [|exact Hc].
  rewrite Hr. apply (Reward_update_other _ _ _ _ _ Hu).
  intros ->. apply Hl1. left.
Qed.

(** C2, at a ledger that holds two rewards which both expire in the
    coming tick ([expire_clock = 1 * dt]).  The sweep evicts the first
    one; the second one then sits at the index the iterator has already
    passed, so it is neither updated nor evicted: after the sweep it is
    still held, with its expire clock untouched, and it leaves only with
    the second sweep. *)
Theorem C2_sweep_skips_entry_after_eviction (np_exp : Q → Q) :
  ∃ σ c σ1 c1 σ2 c2,
    ledger_two_one_tick np_exp = Ok (σ, c) ∧
    cache c = [0; 1]%nat ∧
    expire_clock <$> rewards σ !! 0%nat = Some (1 # 100) ∧
    expire_clock <$> rewards σ !! 1%nat = Some (1 # 100) ∧
    dt <$> rewards σ !! 1%nat = Some (1 # 100) ∧
    RewardCache_update σ c = Ok (σ1, c1) ∧
    cache c1 = [1%nat] ∧
    rewards σ1 !! 1%nat = rewards σ !! 1%nat ∧
    RewardCache_update σ1 c1 = Ok (σ2, c2) ∧
    cache c2 = [].
Proof.
  eexists _, _, _, _, _, _.
  split; [vm_compute; reflexivity|].
  split; [reflexivity|].
  split; [vm_compute; reflexivity|].
  split; [vm_compute; reflexivity|].
  split; [vm_compute; reflexivity|].
  split; [vm_compute; reflexivity|].
  split; [reflexivity|].
  split; [vm_compute; reflexivity|].
  split; [vm_compute; reflexivity|].
  reflexivity.
Qed.

(** ** Reward.__init__ without an expire clock *)

(** Built without a numeric expire clock, a reward gets [dt] as its
    expire clock. *)
Lemma Reward_init_not_a_number (np_exp : Q → Q) init_state dt0 expire dec
    knobs drive strength (σ σ' : store) (l : loc) :
  not_a_number expire →
  Reward_init np_exp init_state dt0 expire dec knobs drive strength σ
    = Ok (l, σ') →
  ∃ r, rewards σ' !! l = Some r ∧ expire_clock r = dt0 ∧ dt r = dt0.
Proof.
  intros Hnum H. unfold Reward_init in H. inv_bind H.
  destruct a as [[preset0 knobs0] decay0]. simpl in H.
  injection H as <- <-. simpl.
  eexists. split; [apply lookup_insert_eq|].
  destruct expire; [destruct Hnum | split; reflexivity ..].
Qed.

(** The first [update] of a reward whose expire clock equals its [dt]
    reports it inactive, provided its decay law evaluates. *)
Lemma Reward_update_last_tick (σ : store) (l : loc) (r : Reward) (d : Q) :
  rewards σ !! l = Some r → decay r [state r] = Ok d →
  expire_clock r = dt r →
  ∃ σ', Reward_update σ l = Ok (σ', false).
Proof.
  intros Hl Hd Hclock.
  destruct (Reward_get_delta_value r d Hd) as (delta & Hdelta & _).
  unfold Reward_update. rewrite Hl, Hdelta. simpl.
  assert (Hb : negb (Qle_bool (expire_clock r - dt r) 0) = false).
  { apply negb_false_iff, Qle_bool_iff. rewrite Hclock.
    ring_simplify. apply Qle_refl. }
  rewrite Hb. eexists. reflexivity.
Qed.

(** Alone in its ledger, such a reward is evicted by the first sweep. *)
Lemma last_tick_reward_alone_is_evicted (σ : store) (l : loc) (v : bool)
    (r : Reward) (d : Q) :
  rewards σ !! l = Some r → decay r [state r] = Ok d →
  expire_clock r = dt r →
  ∃ σ', RewardCache_update σ (mkRewardCache [l] v)
        = Ok (σ', mkRewardCache [] v).
Proof.
  intros Hl Hd Hclock.
  destruct (Reward_update_last_tick σ l r d Hl Hd Hclock) as [σ' Hu].
  exists σ'. rewrite RewardCache_update_single, Hu. reflexivity.
Qed.

(** The module-level default is what [Reward.__init__] builds in the
    empty store. *)
Lemma reward_default_init (np_exp : Q → Q) :
  Reward_init np_exp (InitValue 1) (1 # 100) (ExpireNumber 1)
              (DecayStr "linear") [] None 1 empty_store
  = Ok (0, store_default).
Proof. reflexivity. Qed.

(** With every optional argument at its default, [decay] is the
    two-argument preset itself, and [update] cannot call it. *)
Lemma all_defaults_reward_update_raises (np_exp : Q → Q) :
  ∃ l σ, all_defaults_reward np_exp empty_store = Ok (l, σ) ∧
         Reward_update σ l = Raise TypeError.
Proof. eexists _, _. split; vm_compute; reflexivity. Qed.

(** C10, at a ledger that holds a one-tick reward followed by a reward
    built with [expire_clock=None].  The latter gets [dt] as its expire
    clock, but the sweep that evicts the entry before it skips it: after
    one sweep it is still in the ledger, and it leaves with the second
    sweep. *)
Theorem C10_no_clock_reward_survives_first_sweep (np_exp : Q → Q) :
  ∃ σ c σ1 c1 σ2 c2,
    ledger_one_tick_then_no_clock np_exp = Ok (σ, c) ∧
    cache c = [0; 1] ∧
    expire_clock <$> rewards σ !! 1 = Some (1 # 100) ∧
    dt <$> rewards σ !! 1 = Some (1 # 100) ∧
    RewardCache_update σ c = Ok (σ1, c1) ∧
    cache c1 = [1] ∧
    RewardCache_update σ1 c1 = Ok (σ2, c2) ∧
    cache c2 = [].
Proof.
  eexists _, _, _, _, _, _.
  split; [vm_compute; reflexivity|].
  split; [reflexivity|].
  split; [vm_compute; reflexivity|].
  split; [vm_compute; reflexivity|].
  split; [vm_compute; reflexivity|].
  split; [reflexivity|].
  split; [vm_compute; reflexivity|].
  reflexivity.
Qed.

(** ** Copies of rewards *)

Lemma copy_allocates (σ : store) (l : loc) (r : Reward) :
  rewards σ !! l = Some r →
  ∃ l', copy σ l = (l', mkStore (<[l' := r]> (rewards σ)) (histories σ)) ∧
        rewards σ !! l' = None.
Proof.
  intros Hl. unfold copy, alloc_reward. rewrite Hl.
  eexists. split; [reflexivity|].
  apply not_elem_of_dom, is_fresh.
Qed.

(** The copy is shallow: it keeps the reference to the [history]
    dictionary of the original. *)
Lemma copy_shares_history (σ σ' : store) (l l' : loc) (r : Reward) :
  rewards σ !! l = Some r → copy σ l = (l', σ') →
  history <$> rewards σ' !! l' = Some (history r) ∧
  histories σ' = histories σ.
Proof.
  intros Hl Hc. destruct (copy_allocates σ l r Hl) as (l0 & Hc0 & _).
  rewrite Hc0 in Hc. injection Hc as <- <-. simpl.
  rewrite lookup_insert_eq. auto.
Qed.

Lemma SpatialGoal_check_Ok_inv get_distances env_Agents g agents rs idx :
  SpatialGoal_check get_distances env_Agents g agents = Ok (rs, idx) →
  rs = replicate (length idx) (reward g) ∧
  ∃ agents0, Goal_agents env_Agents agents = Ok agents0 ∧
    idx = np_where
            (map (λ agent, SpatialGoal_in_goal_radius get_distances g
                             (pos agent) (goal_pos g)) agents0).
Proof.
  unfold SpatialGoal_check. intros H. inv_bind H.
  injection H as <- <-. split; [reflexivity|].
  exists a. split; [assumption | reflexivity].
Qed.

(** C7, as the code has it.  [SpatialGoal.check] returns one reference
    per satisfying agent, and each of them is the reward template of the
    goal itself.  The independent object is made when a reward is
    deposited: [RewardCache.append] with [copymode] true stores a
    reference to a new object, different from the template and from
    every object that existed before, holding the attributes of the
    template; and an [update] of that new object changes no other
    reward, so neither the template nor a copy deposited for another
    agent. *)
Theorem C7_rewards_are_copied_on_deposit
    (get_distances : position → position → Q) (env_Agents : list Agent)
    (g : SpatialGoal) (agents : agents_arg) (rs : list loc) (idx : list nat)
    (σ : store) (c : RewardCache) (r : Reward) :
  SpatialGoal_check get_distances env_Agents g agents = Ok (rs, idx) →
  rewards σ !! reward g = Some r →
  length rs = length idx ∧
  (∀ l, l ∈ rs → l = reward g) ∧
  ∃ l' σ1,
    RewardCache_append σ c (Some (reward g)) true
      = (σ1, mkRewardCache (cache c ++ [l']) (verbose c)) ∧
    rewards σ !! l' = None ∧
    rewards σ1 !! l' = Some r ∧
    (∀ l0, l0 ≠ l' → rewards σ1 !! l0 = rewards σ !! l0) ∧
    (∀ σ2 b l0, Reward_update σ1 l' = Ok (σ2, b) → l0 ≠ l' →
                rewards σ2 !! l0 = rewards σ1 !! l0).
Proof.
  intros Hcheck Hl.
  apply SpatialGoal_check_Ok_inv in Hcheck. destruct Hcheck as [-> _].
  split; [apply length_replicate|].
  split; [intros l Hin; apply elem_of_replicate in Hin; tauto|].
  destruct (copy_allocates σ (reward g) r Hl) as (l' & Hcopy & Hfresh).
  exists l'. eexists. unfold RewardCache_append. rewrite Hcopy.
  split; [reflexivity|]. simpl.
  split; [exact Hfresh|].
  split; [apply lookup_insert_eq|].
  split.
  - intros l0 Hne. apply lookup_insert_ne. congruence.
  - intros σ2 b l0 Hu Hne. exact (Reward_update_other _ _ _ _ _ Hu Hne).
Qed.

Lemma C7_rewards_are_copied_on_deposit_witness :
  length [0; 0] = length [0; 1] ∧
  (∀ l, l ∈ [0; 0] → l = reward goal_G) ∧
  ∃ l' σ1,
    RewardCache_append store_default (mkRewardCache [] false)
                       (Some (reward goal_G)) true
      = (σ1, mkRewardCache ([] ++ [l']) false) ∧
    rewards store_default !! l' = None ∧
    rewards σ1 !! l' = Some reward_default ∧
    (∀ l0, l0 ≠ l' → rewards σ1 !! l0 = rewards store_default !! l0) ∧
    (∀ σ2 b l0, Reward_update σ1 l' = Ok (σ2, b) → l0 ≠ l' →
                rewards σ2 !! l0 = rewards σ1 !! l0).
Proof.
  apply (C7_rewards_are_copied_on_deposit distance_1D two_agents_on_G goal_G
           AgentsNone [0; 0] [0; 1] store_default
           (mkRewardCache [] false) reward_default).
  - vm_compute. reflexivity.
  - reflexivity.
Defined.

(** C7 as stated fails: with two agents in the goal radius,
    [SpatialGoal.check] returns the same reference twice, and it is the
    reference to the template; an [update] through it changes the state
    that the other reference and the template denote. *)
Lemma C7_check_returns_the_template_twice :
  ∃ r0 r1 σ' b s,
    SpatialGoal_check distance_1D two_agents_on_G goal_G AgentsNone
      = Ok ([r0; r1], [0; 1]) ∧
    r0 = r1 ∧ r0 = reward goal_G ∧
    state <$> rewards store_default !! r1 = Some 1%Q ∧
    Reward_update store_default r0 = Ok (σ', b) ∧
    state <$> rewards σ' !! r1 = Some s ∧
    ¬ (s == 1)%Q.
Proof.
  eexists _, _, _, _, _.
  split; [vm_compute; reflexivity|].
  split; [reflexivity|].
  split; [reflexivity|].
  split; [reflexivity|].
  split; [vm_compute; reflexivity|].
  split; [vm_compute; reflexivity|].
  intros H. vm_compute in H. discriminate H.
Qed.

(** ** GoalCache.check *)

Lemma GoalCache_handle_agentmode_Ok (gc gc' : GoalCache) (rf : bool) :
  GoalCache_handle_agentmode gc rf = Ok gc' → gc' = gc.
Proof.
  unfold GoalCache_handle_agentmode, GoalCache_agentmode_is_interact.
  repeat case_decide; intros Heq; try discriminate Heq; congruence.
Qed.

(** Checked against a single agent, a goal reports index [0] or nothing:
    the index counts within the list that was checked. *)
Lemma SpatialGoal_check_one_agent get_distances env_Agents g agent rs idx :
  SpatialGoal_check get_distances env_Agents g (AgentObject agent)
    = Ok (rs, idx) →
  idx = (if SpatialGoal_in_goal_radius get_distances g (pos agent) (goal_pos g)
         then [0] else []).
Proof.
  intros H. apply SpatialGoal_check_Ok_inv in H.
  destruct H as (_ & agents0 & Hag & ->). simpl in Hag.
  injection Hag as <-. simpl. unfold np_where. simpl.
  destruct (SpatialGoal_in_goal_radius _ _ _ _); reflexivity.
Qed.

Section Sequential.

Variable get_distances : position → position → Q.
Variable env_Agents : list Agent.
Variable remove_finished : bool.

(** One iteration of the loop keeps the goals and the modes.  Either it
    records nothing, or it handles agent [0]: then it records the
    agent and moves its cursor by one onto an index of the goal list. *)
Lemma check_sequential_body_spec (acc acc' : seq_acc) (i : nat)
    (agent : Agent) :
  check_sequential_body get_distances env_Agents remove_finished acc i agent
    = Ok acc' →
  goals (acc_cache acc') = goals (acc_cache acc) ∧
  mode (acc_cache acc') = mode (acc_cache acc) ∧
  agentmode (acc_cache acc') = agentmode (acc_cache acc) ∧
  ((acc_agents acc' = acc_agents acc ∧
    acc_rewards acc' = acc_rewards acc ∧
    if_sequential__last_acheived (acc_cache acc')
      = if_sequential__last_acheived (acc_cache acc)) ∨
   (i = 0 ∧ acc_agents acc' = acc_agents acc ++ [0] ∧
    ∃ z, if_sequential__last_acheived (acc_cache acc) !! 0 = Some z ∧
         is_Ok (py_getitem (goals (acc_cache acc)) (z + 1)%Z) ∧
         if_sequential__last_acheived (acc_cache acc')
           = <[0 := (z + 1)%Z]>
               (if_sequential__last_acheived (acc_cache acc)))).
Proof.
  unfold check_sequential_body. intros H.
  inv_bind H. rename a into z, Ha into Hz.
  inv_bind H. rename a into entry, Ha into Hentry.
  inv_bind H. destruct a as [reward0 solution_agents]. rename Ha into Hcheck.
  simpl in H. inv_bind H. rename a into hit, Ha into Hhit.
  inv_bind H. rename a into gc', Ha into Hmode.
  apply GoalCache_handle_agentmode_Ok in Hmode. subst gc'.
  injection H as <-. simpl.
  destruct (if_sequential__last_acheived (acc_cache acc) !! i)
    as [z0|] eqn:Hi; [|discriminate Hz].
  injection Hz as ->.
  destruct hit; simpl.
  - repeat split. right.
    assert (i = 0) as ->.
    { destruct entry as [g|]; [|discriminate Hcheck]. simpl in Hcheck.
      apply SpatialGoal_check_one_agent in Hcheck. subst solution_agents.
      destruct (SpatialGoal_in_goal_radius _ _ _ _); simpl in Hhit.
      - injection Hhit as Hh. apply bool_decide_eq_true in Hh. auto.
      - discriminate Hhit. }
    split; [reflexivity|]. split; [reflexivity|].
    exists z. split; [exact Hi|]. split; [|reflexivity].
    exists entry. exact Hentry.
  - repeat split. left. repeat split; reflexivity.
Qed.

(** From agent [1] on the loop records nothing and moves no cursor. *)
Lemma check_sequential_loop_positive (rest : list Agent) :
  ∀ (acc acc' : seq_acc) (i : nat),
    0 < i →
    check_sequential_loop get_distances env_Agents remove_finished
                          acc i rest = Ok acc' →
    goals (acc_cache acc') = goals (acc_cache acc) ∧
    mode (acc_cache acc') = mode (acc_cache acc) ∧
    agentmode (acc_cache acc') = agentmode (acc_cache acc) ∧
    acc_agents acc' = acc_agents acc ∧
    acc_rewards acc' = acc_rewards acc ∧
    if_sequential__last_acheived (acc_cache acc')
      = if_sequential__last_acheived (acc_cache acc).
Proof.
  induction rest as [|agent rest IH]; intros acc acc' i Hi H; simpl in H.
  - injection H as <-. repeat split.
  - inv_bind H. rename a into acc1.
    apply check_sequential_body_spec in Ha.
    destruct Ha as (Hg1 & Hm1 & Ha1 & Hstep1).
    apply IH in H; [|lia]. destruct H as (Hg & Hm & Ham & Hags & Hrs & Hlast).
    destruct Hstep1 as [(Hags1 & Hrs1 & Hlast1) | (-> & _)]; [|lia].
    repeat split; congruence.
Qed.

End Sequential.

(** A sequential pass that returns keeps every goal in the cache, for
    every agent mode, credits no agent other than agent [0], and moves
    the cursors by [cursor_step]. *)
Lemma GoalCache_check_sequential_spec get_distances env_Agents
    (gs : list (option SpatialGoal)) (am : string) (last : gmap nat Z)
    (rf : bool) rs ags gc' :
  GoalCache_check get_distances env_Agents
                  (mkGoalCache gs "sequential" am last) rf
    = Ok (rs, ags, gc') →
  goals gc' = gs ∧
  (ags = [] ∨ ags = [0]) ∧
  cursor_step gs last (if_sequential__last_acheived gc').
Proof.
  unfold GoalCache_check. simpl.
  destruct (decide ("sequential" = "sequential")) as [_|Hn]; [|congruence].
  intros H. inv_bind H. rename a into acc. injection H as <- <- <-.
  destruct env_Agents as [|agent rest] eqn:Hags; simpl in Ha.
  - injection Ha as <-. simpl. repeat split; [left; reflexivity .. ].
  - inv_bind Ha. rename a into acc1.
    rewrite <- Hags in *.
    apply check_sequential_body_spec in Ha0. simpl in Ha0.
    destruct Ha0 as (Hg1 & _ & _ & Hstep1).
    apply check_sequential_loop_positive in Ha; [|lia].
    destruct Ha as (Hg & _ & _ & Hag & _ & Hlast).
    split; [congruence|].
    rewrite Hag, Hlast.
    destruct Hstep1 as [(-> & _ & ->) | (_ & -> & z & Hz & Hok & ->)].
    + split; left; reflexivity.
    + split; [right; reflexivity|]. right. exists z. auto.
Qed.

(** C3, at a sequential cache in agent mode ["interact"] that holds the
    single goal G, with two agents standing on G.  The check with
    [remove_finished] true credits agent [0] and returns a cache that
    still holds G: nothing removes the satisfied goal. *)
Theorem C3_interact_keeps_the_satisfied_goal :
  ∃ rs gc',
    GoalCache_check distance_1D two_agents_on_G
      (cache_sequential_interact [goal_G] two_agents_on_G) true
      = Ok (rs, [0], gc') ∧
    goals gc' = [Some goal_G].
Proof. eexists _, _. split; vm_compute; reflexivity. Qed.

(** C4, at a sequential cache with the goals G and H and two agents that
    both stand on G, the goal each of them is owed (index [cursor + 1 =
    0]).  Checked alone, agent [1] is in the radius of G; yet the pass
    credits agent [0] only, and the cursor of agent [1] stays at [-1]. *)
Theorem C4_sequential_check_credits_agent_0_only :
  ∃ rs gc',
    SpatialGoal_check distance_1D two_agents_on_G goal_G
      (AgentObject (agent_at (1 # 2))) = Ok ([reward goal_G], [0]) ∧
    GoalCache_check distance_1D two_agents_on_G
      (cache_sequential_interact [goal_G; goal_H] two_agents_on_G) true
      = Ok (rs, [0], gc') ∧
    if_sequential__last_acheived gc' !! 0 = Some 0%Z ∧
    if_sequential__last_acheived gc' !! 1 = Some (-1)%Z.
Proof.
  eexists _, _.
  split; [vm_compute; reflexivity|].
  split; [vm_compute; reflexivity|].
  split; vm_compute; reflexivity.
Qed.

(** C5.  In mode ["nonsequential"] the check never returns: with no
    goals the results cannot be unpacked ([ValueError]), and otherwise
    the final [return rewards, agents] reads a name that was never
    assigned ([UnboundLocalError]), unless an earlier call failed. *)
Theorem C5_nonsequential_check_never_returns
    (get_distances : position → position → Q) (env_Agents : list Agent)
    (gs : list (option SpatialGoal)) (am : string) (last : gmap nat Z)
    (rf : bool) :
  raises (GoalCache_check get_distances env_Agents
            (mkGoalCache gs "nonsequential" am last) rf) ∧
  GoalCache_check get_distances env_Agents
    (mkGoalCache [] "nonsequential" am last) rf = Raise ValueError ∧
  GoalCache_check distance_1D two_agents_on_G
    (mkGoalCache [Some goal_G] "nonsequential" "interact" ∅) true
    = Raise UnboundLocalError.
Proof.
  split; [|split; [|vm_compute; reflexivity]].
  - unfold GoalCache_check. simpl.
    destruct (decide ("nonsequential" = "sequential")) as [Hs|_]; [discriminate Hs|].
    destruct (decide ("nonsequential" = "nonsequential")) as [_|Hn]; [|congruence].
    destruct (result_mapM _ _) as [results|e]; simpl; [|eexists; reflexivity].
    destruct (unpack_zip results) as [[rewards0 sol]|e]; simpl;
      [|eexists; reflexivity].
    destruct (GoalCache_handle_agentmode _ _) as [gc'|e]; simpl;
      eexists; reflexivity.
  - unfold GoalCache_check. simpl.
    destruct (decide ("nonsequential" = "sequential")) as [Hs|_]; [discriminate Hs|].
    destruct (decide ("nonsequential" = "nonsequential")) as [_|Hn]; [|congruence].
    reflexivity.
Qed.

(** ** SpatialGoalEnvironment.reset with goal locations *)

Section Reset.

Variable teleport : Agent → Agent.
Variable random_choice : nat → nat → nat.
Variable ndarray_index : nat → result Z.

(** [reset] looks the requested locations up in the goal cache it has
    just cleared, not among the registered candidates: whenever the
    base-class reset succeeds and a location is requested, the call
    fails on the first one. *)
Lemma reset_with_goal_locations_raises (e e1 : Env) (location : position)
    (locs : list position) (n_objectives : option nat) (draws : nat) :
  TaskEnvironment_reset teleport e = Ok e1 →
  SpatialGoalEnvironment_reset teleport random_choice ndarray_index e
    (Some (location :: locs)) n_objectives draws = Raise ValueError.
Proof.
  intros H. unfold SpatialGoalEnvironment_reset. rewrite H. reflexivity.
Qed.

End Reset.

(** C8, at an environment whose only registered candidate goal is G and
    a request for exactly the position of G.  The requested entry equals
    the registered candidate, and the call fails with [ValueError]. *)
Theorem C8_reset_rejects_a_registered_location
    (teleport : Agent → Agent) (random_choice : nat → nat → nat)
    (ndarray_index : nat → result Z) :
  possible_goals env_1D = [goal_G] ∧
  SpatialGoal_eq goal_G [1 # 2] = true ∧
  SpatialGoalEnvironment_reset teleport random_choice ndarray_index env_1D
    (Some [[1 # 2]]) None 0 = Raise ValueError.
Proof. repeat split. Qed.

(** ** TaskEnvironment.add_agents *)

(** For a non-empty list of agents the time steps play no role: the
    call goes on to enlist the agents whatever their [dt]. *)
Lemma add_agents_ignores_dt (e : Env) (agent : Agent) (agents : list Agent)
    (names : option (list string)) (maxvel : Q) :
  TaskEnvironment_add_agents e (AddList (agent :: agents)) names maxvel
  = enlist_all maxvel e
      (zip (match names with
            | Some ns => ns
            | None => map (λ i, agent_name (length (Agents e) + i))
                          (seq 0 (length (agent :: agents)))
            end)
           (agent :: agents)).
Proof. reflexivity. Qed.

(** The call fails on the test of the time steps exactly for the empty
    list. *)
Lemma add_agents_empty_list (e : Env) (names : option (list string))
    (maxvel : Q) :
  TaskEnvironment_add_agents e (AddList []) names maxvel
  = Raise NotImplementedError.
Proof. reflexivity. Qed.

(** C9, at an environment with [dt = 0.01] and an agent with
    [dt = 0.02].  The time steps differ, and the call returns with the
    agent enlisted. *)
Theorem C9_add_agents_accepts_a_different_dt :
  ∃ e',
    Qeq_bool (ag_dt slow_agent) (env_dt env_1D) = false ∧
    TaskEnvironment_add_agents env_1D (AddAgent slow_agent) None 50 = Ok e' ∧
    Agents e' = [mkAgent [1 # 2] (1 # 50) 0 (Some 0)] ∧
    agent_names e' = ["agent_0"] ∧
    reward_caches e' = [mkRewardCache [] false].
Proof.
  eexists. split; [reflexivity|].
  split; [vm_compute; reflexivity|].
  repeat split.
Qed.

(** ** TaskEnvironment.step *)

(** The class [GoalCache] defines no [check_and_remove_satisfied]:
    [_is_terminal_state] fails on the attribute. *)
Lemma is_terminal_state_raises (e : Env) (σ : store) :
  SpatialGoalEnvironment_is_terminal_state
    GoalCache_no_attribute GoalCache_no_len e σ = Raise AttributeError.
Proof. reflexivity. Qed.

(** C6, at an environment with one enlisted agent that stands on the
    goal it owes, its ledger empty.  The goal is satisfied in this tick:
    a check of the goal cache credits agent [0] with the reward of the
    goal.  Yet [step] reports no totals and deposits nothing.  It moves
    the agent, ages the ledgers, advances the clock and then, in
    [_is_terminal_state], looks up [check_and_remove_satisfied] on the
    goal cache, an attribute that [GoalCache] does not have: the call
    ends in [AttributeError], wherever the locomotion puts the agent. *)
Theorem C6_step_raises_at_goal_resolution
    (Agent_update : Agent → Q → action → Q → Agent)
    (teleport : Agent → Agent) (random_choice : nat → nat → nat)
    (ndarray_index : nat → result Z) :
  (∃ gc',
     GoalCache_check distance_1D (Agents env_two_goals)
                     (goal_cache env_two_goals) true
       = Ok ([[reward goal_G]], [0], gc')) ∧
  reward_caches env_two_goals = [mkRewardCache [] false] ∧
  TaskEnvironment_step Agent_update teleport random_choice
    ndarray_index GoalCache_no_attribute GoalCache_no_len
    env_two_goals store_default (ActionsSequence [[0%Q]]) None 1 0
  = Raise AttributeError.
Proof.
  split; [eexists; vm_compute; reflexivity|].
  split; reflexivity.
Qed.

(** * Further properties *)

(** ** Decay laws *)

(** What [update] keeps of a reward: everything but the state and the
    expire clock. *)
Lemma Reward_update_step (σ : store) (l : loc) (r : Reward) (d : Q) :
  rewards σ !! l = Some r →
  decay r [state r] = Ok d →
  external_drive r = None →
  ∃ σ' r',
    Reward_update σ l
      = Ok (σ', negb (Qle_bool (expire_clock r - dt r) 0)) ∧
    rewards σ' !! l = Some r' ∧
    decay r' = decay r ∧ dt r' = dt r ∧ external_drive r' = None ∧
    state r' = (state r + - d * dt r)%Q ∧
    expire_clock r' = (expire_clock r - dt r)%Q.
Proof.
  intros Hl Hd Hdrive. unfold Reward_update, Reward_get_delta.
  rewrite Hl, Hdrive, Hd. simpl.
  eexists _, _. split; [reflexivity|]. simpl.
  split; [apply lookup_insert_eq|]. simpl. auto.
Qed.

(** [n] updates of an undriven reward whose decay law is [a * state]. *)
Lemma linear_decay_updates (a : Q) (n : nat) :
  ∀ (σ : store) (l : loc) (r : Reward),
    rewards σ !! l = Some r →
    (∀ s, decay r [s] = Ok (a * s)%Q) →
    external_drive r = None →
    ∃ σn rn,
      Reward_updates n σ l = Ok σn ∧
      rewards σn !! l = Some rn ∧
      (state rn == state r * Qpow (1 - a * dt r) n)%Q ∧
      (expire_clock rn
         == expire_clock r - inject_Z (Z.of_nat n) * dt r)%Q.
Proof.
  induction n as [|n IH]; intros σ l r Hl Hdec Hdrive.
  - exists σ, r. simpl. repeat split; [assumption | ring | ring].
  - destruct (Reward_update_step σ l r _ Hl (Hdec (state r)) Hdrive)
      as (σ' & r' & Hu & Hl' & Hd' & Hdt' & Hdrive' & Hs' & He').
    destruct (IH σ' l r' Hl') as (σn & rn & Hn & Hln & Hsn & Hen).
    { intros s. rewrite Hd'. apply Hdec. }
    { exact Hdrive'. }
    exists σn, rn. simpl. rewrite Hu. simpl.
    split; [exact Hn|]. split; [exact Hln|].
    rewrite Hsn, Hen, Hs', He', Hdt'.
    rewrite (Nat2Z.inj_succ n). unfold Z.succ. rewrite inject_Z_plus.
    split; simpl; ring.
Qed.

(** [n] updates of an undriven reward whose decay law is the constant
    [a]. *)
Lemma constant_decay_updates (a : Q) (n : nat) :
  ∀ (σ : store) (l : loc) (r : Reward),
    rewards σ !! l = Some r →
    (∀ s, decay r [s] = Ok a) →
    external_drive r = None →
    ∃ σn rn,
      Reward_updates n σ l = Ok σn ∧
      rewards σn !! l = Some rn ∧
      (state rn == state r - inject_Z (Z.of_nat n) * a * dt r)%Q ∧
      (expire_clock rn
         == expire_clock r - inject_Z (Z.of_nat n) * dt r)%Q.
Proof.
  induction n as [|n IH]; intros σ l r Hl Hdec Hdrive.
  - exists σ, r. simpl. repeat split; [assumption | ring | ring].
  - destruct (Reward_update_step σ l r _ Hl (Hdec (state r)) Hdrive)
      as (σ' & r' & Hu & Hl' & Hd' & Hdt' & Hdrive' & Hs' & He').
    destruct (IH σ' l r' Hl') as (σn & rn & Hn & Hln & Hsn & Hen).
    { intros s. rewrite Hd'. apply Hdec. }
    { exact Hdrive'. }
    exists σn, rn. simpl. rewrite Hu. simpl.
    split; [exact Hn|]. split; [exact Hln|].
    rewrite Hsn, Hen, Hs', He', Hdt'.
    rewrite (Nat2Z.inj_succ n). unfold Z.succ. rewrite inject_Z_plus.
    split; simpl; ring.
Qed.

(** What [Reward.__init__] stores for a preset name that the tables know
    and one explicit knob. *)
Lemma Reward_init_preset (np_exp : Q → Q) (name : string) (f : callable)
    (s0 dt0 e0 a strength : Q) (σ : store) :
  decay_preset np_exp name = Some f →
  ∃ l σ0 h,
    Reward_init np_exp (InitValue s0) dt0 (ExpireNumber e0) (DecayStr name)
                [a] None strength σ = Ok (l, σ0) ∧
    rewards σ0 !! l
      = Some (mkReward s0 dt0 e0 name [a] (partial f [a]) None strength h).
Proof.
  intros Hf. unfold Reward_init. simpl. unfold subscript. rewrite Hf. simpl.
  eexists _, _, _. split; [reflexivity|]. simpl. apply lookup_insert_eq.
Qed.

(** X1.  A reward built with the preset ["linear"] and the knob [a], no
    external drive, follows the discretized linear decay: after [n]
    updates its state is [init_state * (1 - a * dt) ** n] and its expire
    clock is [expire_clock - n * dt]. *)
Theorem linear_preset_closed_form (np_exp : Q → Q)
    (s0 dt0 e0 a strength : Q) (σ : store) (n : nat) :
  ∃ l σ0 σn rn,
    Reward_init np_exp (InitValue s0) dt0 (ExpireNumber e0)
                (DecayStr "linear") [a] None strength σ = Ok (l, σ0) ∧
    Reward_updates n σ0 l = Ok σn ∧
    rewards σn !! l = Some rn ∧
    (state rn == s0 * Qpow (1 - a * dt0) n)%Q ∧
    (expire_clock rn == e0 - inject_Z (Z.of_nat n) * dt0)%Q.
Proof.
  destruct (Reward_init_preset np_exp "linear" _ s0 dt0 e0 a strength σ
              eq_refl) as (l & σ0 & h & Hinit & Hl).
  destruct (linear_decay_updates a n σ0 l _ Hl) as (σn & rn & H);
    [intros s; reflexivity | reflexivity |].
  exists l, σ0, σn, rn. split; [exact Hinit | exact H].
Qed.

(** X2.  With the preset ["constant"] and the knob [a] the state falls
    by [a * dt] per update: after [n] updates it is
    [init_state - n * a * dt]. *)
Theorem constant_preset_closed_form (np_exp : Q → Q)
    (s0 dt0 e0 a strength : Q) (σ : store) (n : nat) :
  ∃ l σ0 σn rn,
    Reward_init np_exp (InitValue s0) dt0 (ExpireNumber e0)
                (DecayStr "constant") [a] None strength σ = Ok (l, σ0) ∧
    Reward_updates n σ0 l = Ok σn ∧
    rewards σn !! l = Some rn ∧
    (state rn == s0 - inject_Z (Z.of_nat n) * a * dt0)%Q ∧
    (expire_clock rn == e0 - inject_Z (Z.of_nat n) * dt0)%Q.
Proof.
  destruct (Reward_init_preset np_exp "constant" _ s0 dt0 e0 a strength σ
              eq_refl) as (l & σ0 & h & Hinit & Hl).
  destruct (constant_decay_updates a n σ0 l _ Hl) as (σn & rn & H);
    [intros s; reflexivity | reflexivity |].
  exists l, σ0, σn, rn. split; [exact Hinit | exact H].
Qed.

(** ** Construction of rewards *)

(** X3.  [Reward.__init__] fails with [KeyError] on a decay given as a
    string that is none of the four preset names, with or without knobs,
    and on a decay given as a function without knobs (the knob table has
    no entry ["custom"]). *)
Theorem Reward_init_KeyError (np_exp : Q → Q) (name : string) (f : callable)
    (init_state : init_state_arg) (dt0 : Q) (expire : expire_clock_arg)
    (knobs : list Q) (drive : option (unit → Q)) (strength : Q) (σ : store) :
  name ≠ "constant" → name ≠ "linear" → name ≠ "exponential" →
  name ≠ "none" →
  Reward_init np_exp init_state dt0 expire (DecayStr name) knobs drive
              strength σ = Raise KeyError ∧
  Reward_init np_exp init_state dt0 expire (DecayFunction f) [] drive
              strength σ = Raise KeyError.
Proof.
  intros Hc Hl He Hn. split; [|reflexivity].
  unfold Reward_init, subscript, decay_knobs_preset, decay_preset.
  destruct knobs; simpl; repeat case_decide; try congruence; reflexivity.
Qed.

Lemma Reward_init_KeyError_witness :
  Reward_init (λ x, x) (InitValue 1) (1 # 100) ExpireNone
              (DecayStr "quadratic") [2%Q] None 1 empty_store
    = Raise KeyError ∧
  Reward_init (λ x, x) (InitValue 1) (1 # 100) ExpireNone
              (DecayFunction (lambda1 (λ x, x * x)%Q)) [] None 1 empty_store
    = Raise KeyError.
Proof.
  apply (Reward_init_KeyError (λ x, x) "quadratic"); discriminate.
Defined.

(** X4.  A reward built with [decay=None] (the default), whatever the
    knobs, or with the preset ["none"] and no knobs, is built without an
    error and cannot be updated: its decay law still expects two
    arguments, and [update] raises [TypeError]. *)
Theorem default_decay_cannot_update (np_exp : Q → Q)
    (init_state : init_state_arg) (dt0 : Q) (expire : expire_clock_arg)
    (knobs : list Q) (drive : option (unit → Q)) (strength : Q) (σ : store) :
  (∃ l σ',
     Reward_init np_exp init_state dt0 expire DecayNone knobs drive
                 strength σ = Ok (l, σ') ∧
     Reward_update σ' l = Raise TypeError) ∧
  (∃ l σ',
     Reward_init np_exp init_state dt0 expire (DecayStr "none") [] drive
                 strength σ = Ok (l, σ') ∧
     Reward_update σ' l = Raise TypeError).
Proof.
  split.
  - destruct knobs as [|k knobs]; eexists _, _; (split; [reflexivity|]);
      unfold Reward_update; simpl; rewrite lookup_insert_eq;
      unfold Reward_get_delta; simpl; destruct drive; reflexivity.
  - eexists _, _. split; [reflexivity|].
    unfold Reward_update. simpl. rewrite lookup_insert_eq.
    unfold Reward_get_delta. simpl. destruct drive; reflexivity.
Qed.

(** ** Copies and the shared history *)

(** X5.  Depositing a reward with [copymode] true and updating the
    deposited copy leaves the original as it was, and appends the new
    state and expire clock of the copy to the [history] dictionary of the
    original: the copy is shallow, the two objects share that
    dictionary. *)
Theorem update_of_copy_writes_shared_history (σ : store) (c : RewardCache)
    (l : loc) (r : Reward) (h : History) (d : Q) :
  rewards σ !! l = Some r →
  histories σ !! history r = Some h →
  decay r [state r] = Ok d →
  ∃ l' σ1 σ2 b r',
    RewardCache_append σ c (Some l) true
      = (σ1, mkRewardCache (cache c ++ [l']) (verbose c)) ∧
    Reward_update σ1 l' = Ok (σ2, b) ∧
    l' ≠ l ∧
    rewards σ2 !! l = Some r ∧
    rewards σ2 !! l' = Some r' ∧
    history r' = history r ∧
    histories σ2 !! history r
      = Some (mkHistory (h_state h ++ [state r'])
                        (h_expire_clock h ++ [expire_clock r'])).
Proof.
  intros Hl Hh Hd.
  destruct (copy_allocates σ l r Hl) as (l' & Hcopy & Hfresh).
  destruct (Reward_get_delta_value r d Hd) as (delta & Hdelta & _).
  assert (Hne : l' ≠ l) by congruence.
  exists l'. eexists _, _, _, _.
  unfold RewardCache_append. rewrite Hcopy.
  split; [reflexivity|].
  unfold Reward_update. simpl. rewrite lookup_insert_eq, Hdelta. simpl.
  split; [reflexivity|]. simpl.
  split; [exact Hne|].
  split; [rewrite !lookup_insert_ne by congruence; exact Hl|].
  split; [apply lookup_insert_eq|]. simpl.
  split; [reflexivity|].
  rewrite lookup_alter_eq, Hh. reflexivity.
Qed.

Lemma update_of_copy_writes_shared_history_witness :
  ∃ l' σ1 σ2 b r',
    RewardCache_append store_default (mkRewardCache [] false) (Some 0) true
      = (σ1, mkRewardCache ([] ++ [l']) false) ∧
    Reward_update σ1 l' = Ok (σ2, b) ∧
    l' ≠ 0 ∧
    rewards σ2 !! 0 = Some reward_default ∧
    rewards σ2 !! l' = Some r' ∧
    history r' = history reward_default ∧
    histories σ2 !! history reward_default
      = Some (mkHistory ([] ++ [state r']) ([] ++ [expire_clock r'])).
Proof.
  apply (update_of_copy_writes_shared_history store_default
           (mkRewardCache [] false) 0 reward_default (mkHistory [] []) 1).
  - reflexivity.
  - reflexivity.
  - vm_compute. reflexivity.
Defined.

(** ** Ledgers *)

Lemma get_total_fold_Ok (σ : store) (c : list loc) :
  ∀ (acc : result Q) (s : Q),
    foldl (λ acc l,
             s ← acc;
             match rewards σ !! l with
             | Some r => Ok (s + state r)%Q
             | None => Raise AttributeError
             end) acc c = Ok s →
    (∃ s0, acc = Ok s0) ∧ ∀ l, l ∈ c → is_Some (rewards σ !! l).
Proof.
  induction c as [|l0 c IH]; intros acc s H; simpl in H.
  - split; [eauto|]. intros l Hl. inversion Hl.
  - apply IH in H. destruct H as [[s1 Hs1] Hall].
    destruct acc as [s0|e]; [|discriminate Hs1]. simpl in Hs1.
    destruct (rewards σ !! l0) as [r0|] eqn:Hl0; [|discriminate Hs1].
    split; [eauto|]. intros l Hl. apply elem_of_cons in Hl.
    destruct Hl as [->|Hl]; [rewrite Hl0; eauto | auto].
Qed.

Lemma get_total_fold_ext (σ σ' : store) (c : list loc) :
  (∀ l, l ∈ c → rewards σ' !! l = rewards σ !! l) →
  ∀ acc : result Q,
    foldl (λ acc l,
             s ← acc;
             match rewards σ' !! l with
             | Some r => Ok (s + state r)%Q
             | None => Raise AttributeError
             end) acc c
    = foldl (λ acc l,
               s ← acc;
               match rewards σ !! l with
               | Some r => Ok (s + state r)%Q
               | None => Raise AttributeError
               end) acc c.
Proof.
  induction c as [|l0 c IH]; intros Hsame acc; [reflexivity|].
  simpl. rewrite (Hsame l0) by left. apply IH.
  intros l Hl. apply Hsame. right. exact Hl.
Qed.

Lemma get_total_ext (σ σ' : store) (c : RewardCache) :
  (∀ l, l ∈ cache c → rewards σ' !! l = rewards σ !! l) →
  RewardCache_get_total σ' c = RewardCache_get_total σ c.
Proof. intros H. apply get_total_fold_ext. exact H. Qed.

Lemma get_total_snoc (σ : store) (c : list loc) (v : bool) (l : loc) :
  RewardCache_get_total σ (mkRewardCache (c ++ [l]) v)
  = s ← RewardCache_get_total σ (mkRewardCache c v);
    match rewards σ !! l with
    | Some r => Ok (s + state r)%Q
    | None => Raise AttributeError
    end.
Proof. unfold RewardCache_get_total. simpl. rewrite foldl_app. reflexivity. Qed.

(** X6.  Depositing a reward raises the total of a ledger by the state
    of that reward, with or without a copy; the total that
    [get_total] reports afterwards is the former total plus that state. *)
Theorem append_adds_state_to_total (σ : store) (c : RewardCache) (l : loc)
    (r : Reward) (copymode : bool) (s : Q) :
  RewardCache_get_total σ c = Ok s →
  rewards σ !! l = Some r →
  RewardCache_get_total (RewardCache_append σ c (Some l) copymode).1
                        (RewardCache_append σ c (Some l) copymode).2
  = Ok (s + state r)%Q.
Proof.
  intros Htot Hl.
  pose proof (get_total_fold_Ok σ (cache c) _ s Htot) as [_ Hall].
  destruct c as [c v]. unfold RewardCache_append. destruct copymode.
  - destruct (copy_allocates σ l r Hl) as (l' & Hcopy & Hfresh).
    rewrite Hcopy. cbn [fst snd cache verbose].
    rewrite get_total_snoc.
    rewrite (get_total_ext σ).
    + rewrite Htot. simpl. rewrite lookup_insert_eq. reflexivity.
    + intros l0 Hl0. simpl. apply lookup_insert_ne. intros ->.
      destruct (Hall l0 Hl0) as [r0 Hr0]. congruence.
  - cbn [fst snd cache verbose]. rewrite get_total_snoc, Htot. simpl.
    rewrite Hl. reflexivity.
Qed.

Lemma append_adds_state_to_total_witness :
  RewardCache_get_total
    (RewardCache_append store_default (mkRewardCache [0] false)
                        (Some 0) true).1
    (RewardCache_append store_default (mkRewardCache [0] false)
                        (Some 0) true).2
  = Ok (0 + 1 + state reward_default)%Q.
Proof.
  apply (append_adds_state_to_total store_default (mkRewardCache [0] false)
           0 reward_default true (0 + 1)%Q).
  - reflexivity.
  - reflexivity.
Defined.

Lemma list_remove_first_sublist (x : loc) (c : list loc) :
  list_remove_first x c `sublist_of` c.
Proof.
  induction c as [|y c IH]; simpl; [constructor|].
  destruct (decide (y = x)).
  - apply sublist_cons. reflexivity.
  - apply sublist_skip. exact IH.
Qed.

Lemma sweep_sublist (fuel : nat) :
  ∀ (i : nat) (σ σ' : store) (c c' : list loc),
    sweep fuel i σ c = Ok (σ', c') → c' `sublist_of` c.
Proof.
  induction fuel as [|fuel IH]; intros i σ σ' c c' H; simpl in H.
  - injection H as <- <-. reflexivity.
  - destruct (c !! i) as [reward0|].
    + inv_bind H. destruct a as [σ1 active]. simpl in H.
      destruct active.
      * exact (IH _ _ _ _ _ H).
      * transitivity (list_remove_first reward0 c);
          [exact (IH _ _ _ _ _ H) | apply list_remove_first_sublist].
    + injection H as <- <-. reflexivity.
Qed.

(** X7.  A sweep never adds to a ledger and never reorders it: the
    entries it leaves are a subsequence of the entries it found, so the
    ledger does not grow. *)
Theorem RewardCache_update_sublist (σ σ' : store) (c c' : RewardCache) :
  RewardCache_update σ c = Ok (σ', c') →
  cache c' `sublist_of` cache c ∧
  length (cache c') ≤ length (cache c) ∧
  verbose c' = verbose c.
Proof.
  unfold RewardCache_update. intros H.
  inv_bind H. destruct a as [σ1 c1]. simpl in H. injection H as <- <-.
  simpl. apply sweep_sublist in Ha.
  split; [exact Ha|]. split; [apply sublist_length; exact Ha | reflexivity].
Qed.

Lemma RewardCache_update_sublist_witness :
  cache (ok_or (RewardCache_update store_two_one_tick
                  (mkRewardCache [0; 1] false))
               (empty_store, mkRewardCache [] false)).2
    `sublist_of` cache (mkRewardCache [0; 1] false) ∧
  length (cache (ok_or (RewardCache_update store_two_one_tick
                          (mkRewardCache [0; 1] false))
                       (empty_store, mkRewardCache [] false)).2)
    ≤ length (cache (mkRewardCache [0; 1] false)) ∧
  verbose (ok_or (RewardCache_update store_two_one_tick
                    (mkRewardCache [0; 1] false))
                 (empty_store, mkRewardCache [] false)).2
    = verbose (mkRewardCache [0; 1] false).
Proof.
  apply (RewardCache_update_sublist store_two_one_tick
           (ok_or (RewardCache_update store_two_one_tick
                     (mkRewardCache [0; 1] false))
                  (empty_store, mkRewardCache [] false)).1).
  vm_compute. reflexivity.
Defined.

Lemma sweep_all_active (fuel : nat) :
  ∀ (i : nat) (σ : store) (c : list loc),
    length c - i ≤ fuel →
    NoDup c →
    (∀ j l, i ≤ j → c !! j = Some l → stays_active σ l) →
    ∃ σ',
      sweep fuel i σ c = Ok (σ', c) ∧
      (∀ j l r, i ≤ j → c !! j = Some l → rewards σ !! l = Some r →
                ∃ r', rewards σ' !! l = Some r' ∧ updated_once r r') ∧
      (∀ l, (∀ j, i ≤ j → c !! j ≠ Some l) →
            rewards σ' !! l = rewards σ !! l).
Proof.
  induction fuel as [|fuel IH]; intros i σ c Hfuel Hnd Hact.
  - exists σ. split; [reflexivity|]. split; [|auto].
    intros j l r Hij Hj. apply lookup_lt_Some in Hj. lia.
  - simpl. destruct (c !! i) as [l0|] eqn:Hi.
    + destruct (Hact i l0 (le_n i) Hi) as (r0 & Hl0 & Htot & Hpos).
      destruct (Htot (state r0)) as [d Hd].
      destruct (Reward_get_delta_value r0 d Hd) as (delta & Hdelta & Hdv).
      assert (Hb : negb (Qle_bool (expire_clock r0 - dt r0) 0) = true)
        by (apply Qle_bool_false_lt; exact Hpos).
      unfold Reward_update at 1. rewrite Hl0, Hdelta. simpl. rewrite Hb.
      set (r0' := mkReward _ _ _ _ _ _ _ _ _).
      set (σ1 := mkStore _ _).
      assert (Hother : ∀ l, l ≠ l0 → rewards σ1 !! l = rewards σ !! l).
      { intros l Hne. simpl. apply lookup_insert_ne. congruence. }
      assert (Hlater : ∀ j l, S i ≤ j → c !! j = Some l → l ≠ l0).
      { intros j l Hij Hj ->.
        pose proof (NoDup_lookup c i j l0 Hnd Hi Hj). lia. }
      destruct (IH (S i) σ1 c) as (σ' & Hsweep & Hupd & Hrest);
        [lia | exact Hnd | |].
      { intros j l Hij Hj. destruct (Hact j l) as (r & Hr & Hrt & Hrp);
          [lia | exact Hj |].
        exists r. rewrite (Hother l (Hlater j l Hij Hj)). auto. }
      exists σ'. split; [exact Hsweep|]. split.
      * intros j l r Hij Hj Hr.
        destruct (decide (j = i)) as [->|Hne].
        -- assert (l = l0) as -> by congruence.
           assert (r = r0) as -> by congruence.
           exists r0'. split.
           ++ rewrite Hrest; [apply lookup_insert_eq|].
              intros j Hij' Hj'. exact (Hlater j l0 Hij' Hj' eq_refl).
           ++ split; [reflexivity|]. exists d. split; [exact Hd|].
              simpl. rewrite Hdv. ring.
        -- apply (Hupd j l r); [lia | exact Hj |].
           rewrite (Hother l); [exact Hr|]. apply (Hlater j); [lia | exact Hj].
      * intros l Hnot. rewrite Hrest.
        -- apply Hother. intros ->. exact (Hnot i (le_n i) Hi).
        -- intros j Hij. apply Hnot. lia.
    + exists σ. split; [reflexivity|]. split; [|auto].
      intros j l r Hij Hj. apply lookup_lt_Some in Hj.
      apply lookup_ge_None in Hi. lia.
Qed.

(** X8.  When no reward of a ledger expires in the coming tick, and no
    reference occurs twice, the sweep ages the ledger as intended: it
    returns the ledger unchanged, every held reward has been updated
    exactly once, and no other reward of the store has changed. *)
Theorem RewardCache_update_all_active (σ : store) (c : list loc) (v : bool) :
  NoDup c →
  (∀ l, l ∈ c → stays_active σ l) →
  ∃ σ',
    RewardCache_update σ (mkRewardCache c v) = Ok (σ', mkRewardCache c v) ∧
    (∀ l r, l ∈ c → rewards σ !! l = Some r →
            ∃ r', rewards σ' !! l = Some r' ∧ updated_once r r') ∧
    (∀ l, l ∉ c → rewards σ' !! l = rewards σ !! l).
Proof.
  intros Hnd Hact.
  destruct (sweep_all_active (length c) 0 σ c) as (σ' & Hs & Hupd & Hrest);
    [lia | exact Hnd | |].
  { intros j l _ Hj. apply Hact. apply list_elem_of_lookup. eauto. }
  exists σ'. unfold RewardCache_update. simpl. rewrite Hs. simpl.
  split; [reflexivity|]. split.
  - intros l r Hin Hr. apply list_elem_of_lookup in Hin.
    destruct Hin as [j Hj]. apply (Hupd j l r); [lia | exact Hj | exact Hr].
  - intros l Hnot. apply Hrest. intros j _ Hj. apply Hnot.
    apply list_elem_of_lookup. eauto.
Qed.

Lemma reward_default_decay_total : decay_total reward_default.
Proof. intros s. eexists. reflexivity. Qed.

Lemma RewardCache_update_all_active_witness :
  ∃ σ',
    RewardCache_update store_default (mkRewardCache [0] false)
      = Ok (σ', mkRewardCache [0] false) ∧
    (∀ l r, l ∈ [0] → rewards store_default !! l = Some r →
            ∃ r', rewards σ' !! l = Some r' ∧ updated_once r r') ∧
    (∀ l, l ∉ [0] → rewards σ' !! l = rewards store_default !! l).
Proof.
  apply (RewardCache_update_all_active store_default [0] false).
  - apply NoDup_singleton.
  - intros l Hl. apply list_elem_of_singleton in Hl. subst l.
    exists reward_default. split; [reflexivity|].
    split; [exact reward_default_decay_total|]. vm_compute. reflexivity.
Defined.



(** X10.  The entry that follows an evicted entry is skipped by the
    sweep: when the first reward of a ledger reports inactive and is
    removed, the second one comes out of the sweep as it went in, not
    updated and still held, whatever its own expire clock. *)
Theorem sweep_skips_the_entry_after_an_eviction (σ σ1 σ' : store)
    (l1 l2 : loc) (rest : list loc) (v : bool) (c' : RewardCache) :
  NoDup (l1 :: l2 :: rest) →
  Reward_update σ l1 = Ok (σ1, false) →
  RewardCache_update σ (mkRewardCache (l1 :: l2 :: rest) v) = Ok (σ', c') →
  rewards σ' !! l2 = rewards σ !! l2 ∧ cache c' !! 0 = Some l2.
Proof. apply sweep_skips_entry_after_evicted. Qed.

Lemma sweep_skips_the_entry_after_an_eviction_witness :
  rewards (ok_or (RewardCache_update store_two_one_tick
                    (mkRewardCache [0; 1] false))
                 (empty_store, mkRewardCache [] false)).1 !! 1
    = rewards store_two_one_tick !! 1 ∧
  cache (ok_or (RewardCache_update store_two_one_tick
                  (mkRewardCache [0; 1] false))
               (empty_store, mkRewardCache [] false)).2 !! 0
    = Some 1.
Proof.
  apply (sweep_skips_the_entry_after_an_eviction store_two_one_tick
           (ok_or (Reward_update store_two_one_tick 0)
                  (empty_store, false)).1
           _ 0 1 [] false).
  - apply NoDup_cons. split; [|apply NoDup_singleton].
    intros Hin. apply list_elem_of_singleton in Hin. discriminate Hin.
  - vm_compute. reflexivity.
  - vm_compute. reflexivity.
Defined.

(** ** The theoretical trajectory *)

Lemma theoretical_loop_matches_updates (count : nat) :
  ∀ (r0 : Reward) (σ : store) (l : loc) (r : Reward) (vs : list Q)
    (k : nat) (v : Q),
    rewards σ !! l = Some r →
    decay r = decay r0 → external_drive r = external_drive r0 →
    external_drive_strength r = external_drive_strength r0 →
    dt r = dt r0 →
    theoretical_loop r0 (state r) count = Ok vs →
    vs !! k = Some v →
    ∃ σk rk,
      Reward_updates (S k) σ l = Ok σk ∧
      rewards σk !! l = Some rk ∧ state rk = v.
Proof.
  induction count as [|count IH];
    intros r0 σ l r vs k v Hl Hdec Hdrive Hstr Hdt Hloop Hk; simpl in Hloop.
  - injection Hloop as <-. discriminate Hk.
  - inv_bind Hloop. rename a into delta, Ha into Hdelta.
    inv_bind Hloop. rename a into rest. injection Hloop as <-.
    assert (Hdelta' : Reward_get_delta r None = Ok delta).
    { unfold Reward_get_delta in *. rewrite Hdec, Hdrive, Hstr. exact Hdelta. }
    set (r' := mkReward (state r + delta * dt r) (dt r)
                        (expire_clock r - dt r) (preset r) (decay_knobs r)
                        (decay r) (external_drive r)
                        (external_drive_strength r) (history r)).
    assert (Hu : ∃ σ' b, Reward_update σ l = Ok (σ', b) ∧
                         rewards σ' !! l = Some r').
    { unfold Reward_update. rewrite Hl, Hdelta'. simpl.
      eexists _, _. split; [reflexivity|]. simpl. apply lookup_insert_eq. }
    destruct Hu as (σ' & b & Hu & Hl').
    destruct k as [|k]; simpl in Hk.
    + injection Hk as <-. exists σ', r'. simpl. rewrite Hu. simpl.
      split; [reflexivity|]. split; [exact Hl'|].
      simpl. rewrite Hdt. reflexivity.
    + destruct (IH r0 σ' l r' rest k v Hl') as (σk & rk & Hσk & Hrk & Hv);
        try assumption.
      { simpl. rewrite Hdt. exact Ha. }
      exists σk, rk.
      change (Reward_updates (S (S k)) σ l) with
        ('(σ1, _) ← Reward_update σ l; Reward_updates (S k) σ1 l).
      rewrite Hu. simpl. auto.
Qed.

(** X11.  For a reward without an external drive, the values that
    [plot_theoretical_reward] computes agree with what [update] does:
    entry [k] of its list [rewards] is the state the reward has after
    [k] calls of [update]. *)
Theorem theoretical_rewards_match_updates (σ : store) (l : loc) (r : Reward)
    (n_timesteps : nat) (vs : list Q) (k : nat) (v : Q) :
  rewards σ !! l = Some r →
  external_drive r = None →
  theoretical_rewards r n_timesteps = Ok vs →
  vs !! k = Some v →
  ∃ σk rk,
    Reward_updates k σ l = Ok σk ∧
    rewards σk !! l = Some rk ∧ state rk = v.
Proof.
  intros Hl _ Hth Hk. unfold theoretical_rewards in Hth.
  inv_bind Hth. rename a into rest. injection Hth as <-.
  destruct k as [|k]; simpl in Hk.
  - injection Hk as <-. exists σ, r. auto.
  - exact (theoretical_loop_matches_updates _ r σ l r rest k v Hl
             eq_refl eq_refl eq_refl eq_refl Ha Hk).
Qed.

Lemma theoretical_rewards_match_updates_witness :
  ∃ σk rk,
    Reward_updates 2 store_default 0 = Ok σk ∧
    rewards σk !! 0 = Some rk ∧
    state rk = ok_or (v ← theoretical_rewards reward_default 4;
                      match v !! 2 with
                      | Some x => Ok x
                      | None => Raise IndexError
                      end) 0%Q.
Proof.
  apply (theoretical_rewards_match_updates store_default 0 reward_default 4
           (ok_or (theoretical_rewards reward_default 4) []) 2).
  - reflexivity.
  - reflexivity.
  - vm_compute. reflexivity.
  - vm_compute. reflexivity.
Defined.

(** ** Goals and the goal cache *)

(** X12.  A sequential check that returns has kept every goal in the
    cache, whatever the agent mode; it has credited no agent or agent
    [0] alone; and it has left every cursor as it was, except that the
    cursor of agent [0] may have advanced by one, onto an index of the
    goal list. *)
Theorem sequential_check_effect
    (get_distances : position → position → Q) (env_Agents : list Agent)
    (gs : list (option SpatialGoal)) (am : string) (last : gmap nat Z)
    (rf : bool) (rs : list (list loc)) (ags : list nat) (gc' : GoalCache) :
  GoalCache_check get_distances env_Agents
                  (mkGoalCache gs "sequential" am last) rf
    = Ok (rs, ags, gc') →
  goals gc' = gs ∧
  (ags = [] ∨ ags = [0]) ∧
  cursor_step gs last (if_sequential__last_acheived gc').
Proof. apply GoalCache_check_sequential_spec. Qed.

Lemma sequential_check_effect_witness :
  goals (mkGoalCache [Some goal_G] "sequential" "interact"
                     (<[0 := 0%Z]> (minus_ones 2)))
    = [Some goal_G] ∧
  ([0] = [] ∨ [0] = [0]) ∧
  cursor_step [Some goal_G] (minus_ones 2)
    (if_sequential__last_acheived
       (mkGoalCache [Some goal_G] "sequential" "interact"
                    (<[0 := 0%Z]> (minus_ones 2)))).
Proof.
  apply (sequential_check_effect distance_1D two_agents_on_G
           [Some goal_G] "interact" (minus_ones 2) true [[0]] [0]).
  vm_compute. reflexivity.
Defined.




Lemma body_agentmode_not_parallel get_distances env_Agents rf acc acc' i agent :
  check_sequential_body get_distances env_Agents rf acc i agent = Ok acc' →
  agentmode (acc_cache acc) ≠ "parallel".
Proof.
  unfold check_sequential_body. intros H.
  destruct (if_sequential__last_acheived (acc_cache acc) !! i) as [z|];
    simpl in H; [|discriminate H].
  destruct (py_getitem (goals (acc_cache acc)) (z + 1)) as [entry|];
    simpl in H; [|discriminate H].
  destruct (entry_check get_distances env_Agents entry (AgentObject agent))
    as [[reward0 sol]|]; simpl in H; [|discriminate H].
  destruct (np_truth _) as [hit|]; simpl in H; [|discriminate H].
  match type of H with
  | (GoalCache_handle_agentmode ?gc _ ≫= _) = _ =>
      assert (Hsame : agentmode gc = agentmode (acc_cache acc))
        by (destruct hit; reflexivity);
      destruct (GoalCache_handle_agentmode gc rf) as [gc'|] eqn:Hm;
        [|discriminate H];
      unfold GoalCache_handle_agentmode in Hm; rewrite Hsame in Hm
  end.
  destruct (decide (agentmode (acc_cache acc) = "interact")) as [Hi|Hi].
  - rewrite Hi. discriminate.
  - destruct (decide (agentmode (acc_cache acc) = "parallel")) as [Hp|Hp];
      [discriminate Hm | exact Hp].
Qed.

(** X14.  [GoalCache.check] returns only in mode ["sequential"], and
    with agents present only when the agent mode is not ["parallel"]:
    in every other configuration, the default [mode="parallel"] of the
    constructor included, the call raises. *)
Theorem GoalCache_check_returns_only_when_sequential
    (get_distances : position → position → Q) (env_Agents : list Agent)
    (gc : GoalCache) (rf : bool)
    (out : list (list loc) * list nat * GoalCache) :
  GoalCache_check get_distances env_Agents gc rf = Ok out →
  mode gc = "sequential" ∧
  (env_Agents = [] ∨ agentmode gc ≠ "parallel").
Proof.
  unfold GoalCache_check. intros H.
  destruct (decide (mode gc = "sequential")) as [Hseq|Hseq].
  - split; [exact Hseq|].
    destruct env_Agents as [|agent rest]; [left; reflexivity|right].
    inv_bind H. simpl in Ha. inv_bind Ha.
    apply body_agentmode_not_parallel in Ha0. exact Ha0.
  - exfalso. destruct (decide (mode gc = "nonsequential")); [|discriminate H].
    inv_bind H. inv_bind H. destruct a0 as [rewards0 sol]. simpl in H.
    inv_bind H. discriminate H.
Qed.

Lemma GoalCache_check_returns_only_when_sequential_witness :
  mode (cache_sequential_interact [goal_G] two_agents_on_G) = "sequential" ∧
  (two_agents_on_G = [] ∨
   agentmode (cache_sequential_interact [goal_G] two_agents_on_G)
     ≠ "parallel").
Proof.
  apply (GoalCache_check_returns_only_when_sequential distance_1D
           two_agents_on_G (cache_sequential_interact [goal_G] two_agents_on_G)
           true
           (ok_or (GoalCache_check distance_1D two_agents_on_G
                     (cache_sequential_interact [goal_G] two_agents_on_G) true)
                  ([], [], cache_sequential_interact [] []))).
  vm_compute. reflexivity.
Defined.

Lemma py_getitem_at_length {A} (l : list A) :
  py_getitem l (Z.of_nat (length l)) = Raise IndexError.
Proof.
  unfold py_getitem.
  destruct (Z.of_nat (length l) <? 0)%Z eqn:E; [apply Z.ltb_lt in E; lia|].
  rewrite E. rewrite Nat2Z.id. rewrite lookup_ge_None_2 by lia. reflexivity.
Qed.

(** X15.  Once the first agent has been credited the last goal of the
    sequence (its cursor is [len(goals) - 1]), every further sequential
    check raises [IndexError]: the code indexes the goal list one past
    its end.  With an empty goal list this is the case from the start. *)
Theorem sequential_check_past_last_goal
    (get_distances : position → position → Q) (agent : Agent)
    (rest : list Agent) (gs : list (option SpatialGoal)) (am : string)
    (last : gmap nat Z) (rf : bool) :
  last !! 0 = Some (Z.of_nat (length gs) - 1)%Z →
  GoalCache_check get_distances (agent :: rest)
                  (mkGoalCache gs "sequential" am last) rf
  = Raise IndexError.
Proof.
  intros Hlast. unfold GoalCache_check. simpl.
  destruct (decide ("sequential" = "sequential")) as [_|Hn]; [|congruence].
  unfold check_sequential_body. simpl. rewrite Hlast. simpl.
  replace (Z.of_nat (length gs) - 1 + 1)%Z with (Z.of_nat (length gs)) by lia.
  rewrite py_getitem_at_length. reflexivity.
Qed.

Lemma sequential_check_past_last_goal_witness :
  GoalCache_check distance_1D (agent_at (1 # 2) :: [])
                  (mkGoalCache [Some goal_G] "sequential" "interact"
                               (<[0 := 0%Z]> (minus_ones 1))) true
  = Raise IndexError.
Proof.
  apply (sequential_check_past_last_goal distance_1D (agent_at (1 # 2)) []
           [Some goal_G] "interact" (<[0 := 0%Z]> (minus_ones 1)) true).
  reflexivity.
Defined.

Lemma minus_ones_lookup_ge (n k : nat) : n ≤ k → minus_ones n !! k = None.
Proof.
  induction n as [|n IH]; intros Hk; simpl; [apply lookup_empty|].
  rewrite lookup_insert_ne by lia. apply IH. lia.
Qed.

Lemma check_sequential_loop_missing_cursor get_distances env_Agents rf
    (n : nat) (rest : list Agent) :
  ∀ (acc : seq_acc) (i : nat),
    (∀ k, n ≤ k → if_sequential__last_acheived (acc_cache acc) !! k = None) →
    i ≤ n → n < i + length rest →
    raises (check_sequential_loop get_distances env_Agents rf acc i rest).
Proof.
  induction rest as [|agent rest IH]; intros acc i Hnone Hi Hlen;
    simpl in Hlen; [lia|].
  simpl.
  destruct (check_sequential_body get_distances env_Agents rf acc i agent)
    as [acc1|e] eqn:Hbody; simpl; [|eexists; reflexivity].
  destruct (decide (i = n)) as [->|Hne].
  - exfalso. unfold check_sequential_body in Hbody.
    rewrite (Hnone n (le_n n)) in Hbody. discriminate Hbody.
  - apply IH; [|lia|lia].
    apply check_sequential_body_spec in Hbody.
    destruct Hbody as (_ & _ & _ & [(_ & _ & ->) | (_ & _ & z & Hz & _ & ->)]).
    + exact Hnone.
    + intros k Hk. rewrite lookup_insert_ne.
      * apply Hnone. exact Hk.
      * intros <-. rewrite (Hnone 0 Hk) in Hz. discriminate Hz.
Qed.

(** X16.  The cursors are made once, in [GoalCache.__init__], for the
    agents the environment has at that moment.  When the environment
    has since gained an agent, every sequential check raises: the loop
    runs over all agents and finds no cursor for the new one
    ([KeyError]), unless it fails before it gets there. *)
Theorem sequential_check_with_later_agents
    (get_distances : position → position → Q)
    (agents_at_init : list Agent) (new_agent : Agent) (more : list Agent)
    (gs : list (option SpatialGoal)) (am : string) (last : gmap nat Z)
    (rf : bool) :
  (∀ k, length agents_at_init ≤ k → last !! k = None) →
  raises (GoalCache_check get_distances
            (agents_at_init ++ new_agent :: more)
            (mkGoalCache gs "sequential" am last) rf).
Proof.
  intros Hnone. unfold GoalCache_check. simpl.
  destruct (decide ("sequential" = "sequential")) as [_|Hn]; [|congruence].
  destruct (check_sequential_loop_missing_cursor get_distances
              (agents_at_init ++ new_agent :: more) rf
              (length agents_at_init) (agents_at_init ++ new_agent :: more)
              (mkSeqAcc [] [] (mkGoalCache gs "sequential" am last)) 0)
    as [e He].
  - exact Hnone.
  - lia.
  - rewrite length_app. simpl. lia.
  - rewrite He. exists e. reflexivity.
Qed.

Lemma sequential_check_with_later_agents_witness :
  raises (GoalCache_check distance_1D
            ([] ++ agent_at (1 # 2) :: [])
            (mkGoalCache [Some goal_G] "sequential" "interact"
                         (if_sequential__last_acheived
                            (GoalCache_init [] "sequential" "interact")))
            true).
Proof.
  apply (sequential_check_with_later_agents distance_1D [] (agent_at (1 # 2))
           [] [Some goal_G] "interact"
           (if_sequential__last_acheived
              (GoalCache_init [] "sequential" "interact")) true).
  intros k _. reflexivity.
Defined.

Lemma find_in_goals (gs : list SpatialGoal) (p : position) :
  (∃ k g, find_in (map Some gs) p = Ok (Some g) ∧ first_match gs p k g) ∨
  (find_in (map Some gs) p = Ok None ∧
   ∀ g, g ∈ gs → SpatialGoal_eq g p = false).
Proof.
  induction gs as [|g0 gs IH]; simpl.
  - right. split; [reflexivity|]. intros g Hg. inversion Hg.
  - destruct (SpatialGoal_eq g0 p) eqn:Heq.
    + left. exists 0, g0. split; [reflexivity|].
      split; [reflexivity|]. split; [exact Heq|]. intros j g' Hj. lia.
    + destruct IH as [(k & g & Hfind & Hk & Hg & Hbefore) | [Hfind Hnone]].
      * left. exists (S k), g. split; [exact Hfind|].
        split; [exact Hk|]. split; [exact Hg|].
        intros [|j] g' Hj Hl; simpl in Hl.
        -- injection Hl as <-. exact Heq.
        -- apply (Hbefore j g'); [lia | exact Hl].
      * right. split; [exact Hfind|]. intros g Hg.
        apply elem_of_cons in Hg. destruct Hg as [->|Hg]; auto.
Qed.

Lemma coordinates_eqb_spec (p q : position) :
  coordinates_eqb p q = true ↔ same_position p q.
Proof.
  unfold same_position. revert q.
  induction p as [|x p IH]; intros [|y q]; simpl.
  - split; [constructor | reflexivity].
  - split; [discriminate | intros H; inversion H].
  - split; [discriminate | intros H; inversion H].
  - rewrite andb_true_iff, Qeq_bool_iff, IH. split.
    + intros [Hx Hp]. constructor; assumption.
    + intros H. inversion H; subst. auto.
Qed.

(** On positions of one common length the comparison of NumPy is the
    equality of all coordinates. *)
Lemma position_eqb_spec (p q : position) :
  length p = length q →
  position_eqb p q = true ↔ same_position p q.
Proof.
  intros Hlen. rewrite <- coordinates_eqb_spec.
  destruct p as [|x [|x' p]], q as [|y [|y' q]];
    try discriminate Hlen; reflexivity.
Qed.

(** X17.  On a cache whose goals have as many coordinates as the
    requested position, [find] returns the first goal whose position
    has the coordinates of the requested one (the reward and the radius
    play no role), and [None] exactly when no goal of the cache is at
    that position. *)
Theorem GoalCache_find_first_match (gs : list SpatialGoal)
    (mode0 agentmode0 : string) (last : gmap nat Z) (p : position) :
  (∀ g, g ∈ gs → length (goal_pos g) = length p) →
  (∃ k g,
     GoalCache_find (mkGoalCache (map Some gs) mode0 agentmode0 last) p
       = Ok (Some g) ∧
     gs !! k = Some g ∧
     same_position (goal_pos g) p ∧
     ∀ j g', j < k → gs !! j = Some g' → ¬ same_position (goal_pos g') p) ∨
  (GoalCache_find (mkGoalCache (map Some gs) mode0 agentmode0 last) p
     = Ok None ∧
   ∀ g, g ∈ gs → ¬ same_position (goal_pos g) p).
Proof.
  intros Hlen. unfold GoalCache_find. simpl.
  assert (Hno : ∀ g, g ∈ gs → SpatialGoal_eq g p = false →
                     ¬ same_position (goal_pos g) p).
  { intros g Hg Heq Hsame.
    apply (position_eqb_spec _ _ (Hlen g Hg)) in Hsame.
    unfold SpatialGoal_eq in Heq. congruence. }
  destruct (find_in_goals gs p)
    as [(k & g & Hfind & Hk & Hg & Hbefore) | [Hfind Hnone]].
  - left. exists k, g. split; [exact Hfind|]. split; [exact Hk|].
    assert (Hin : g ∈ gs) by (apply list_elem_of_lookup; eauto).
    split; [apply (position_eqb_spec _ _ (Hlen g Hin)); exact Hg|].
    intros j g' Hj Hl. apply Hno; [|exact (Hbefore j g' Hj Hl)].
    apply list_elem_of_lookup. eauto.
  - right. split; [exact Hfind|]. intros g Hg.
    exact (Hno g Hg (Hnone g Hg)).
Qed.

Lemma GoalCache_find_first_match_witness :
  (∃ k g,
     GoalCache_find
       (mkGoalCache (map Some [goal_G; goal_H]) "sequential" "interact" ∅)
       [9 # 10]
       = Ok (Some g) ∧
     [goal_G; goal_H] !! k = Some g ∧
     same_position (goal_pos g) [9 # 10] ∧
     ∀ j g', j < k → [goal_G; goal_H] !! j = Some g' →
             ¬ same_position (goal_pos g') [9 # 10]) ∨
  (GoalCache_find
     (mkGoalCache (map Some [goal_G; goal_H]) "sequential" "interact" ∅)
     [9 # 10]
     = Ok None ∧
   ∀ g, g ∈ [goal_G; goal_H] → ¬ same_position (goal_pos g) [9 # 10]).
Proof.
  apply (GoalCache_find_first_match [goal_G; goal_H] "sequential" "interact"
           ∅ [9 # 10]).
  intros g Hg. apply elem_of_cons in Hg. destruct Hg as [->|Hg].
  - reflexivity.
  - apply list_elem_of_singleton in Hg. subst g. reflexivity.
Defined.

(** X18.  A goal that was appended to a cache of goals with as many
    coordinates as its own is found again by its position: [find] on
    that position returns a goal of the cache at the same position, the
    appended one or an earlier one there. *)
Theorem GoalCache_find_after_append (gs : list SpatialGoal)
    (mode0 agentmode0 : string) (last : gmap nat Z) (g : SpatialGoal) :
  (∀ g0, g0 ∈ gs → length (goal_pos g0) = length (goal_pos g)) →
  ∃ g',
    GoalCache_find
      (GoalCache_append (mkGoalCache (map Some gs) mode0 agentmode0 last)
                        (Some g))
      (goal_pos g) = Ok (Some g') ∧
    g' ∈ gs ++ [g] ∧
    same_position (goal_pos g') (goal_pos g).
Proof.
  intros Hlen. unfold GoalCache_find, GoalCache_append. simpl.
  replace (map Some gs ++ [Some g]) with (map Some (gs ++ [g]))
    by (rewrite map_app; reflexivity).
  assert (Hall : ∀ g0, g0 ∈ gs ++ [g] →
                       length (goal_pos g0) = length (goal_pos g)).
  { intros g0 Hg0. apply elem_of_app in Hg0. destruct Hg0 as [Hg0|Hg0].
    - exact (Hlen g0 Hg0).
    - apply list_elem_of_singleton in Hg0. subst g0. reflexivity. }
  destruct (find_in_goals (gs ++ [g]) (goal_pos g))
    as [(k & g' & Hfind & Hk & Hg & _) | [_ Hnone]].
  - assert (Hin : g' ∈ gs ++ [g]) by (apply list_elem_of_lookup; eauto).
    exists g'. split; [exact Hfind|]. split; [exact Hin|].
    apply (position_eqb_spec _ _ (Hall g' Hin)). exact Hg.
  - exfalso. assert (Hin : g ∈ gs ++ [g]) by (apply elem_of_app; right; left).
    specialize (Hnone g Hin). unfold SpatialGoal_eq in Hnone.
    assert (Hrefl : position_eqb (goal_pos g) (goal_pos g) = true).
    { apply position_eqb_spec; [reflexivity|].
      unfold same_position. apply Forall2_same_length_lookup_2; [reflexivity|].
      intros i x y Hx Hy. rewrite Hx in Hy. injection Hy as <-. reflexivity. }
    congruence.
Qed.

Lemma GoalCache_find_after_append_witness :
  ∃ g',
    GoalCache_find
      (GoalCache_append
         (mkGoalCache (map Some [goal_G]) "sequential" "interact" ∅)
         (Some goal_H))
      (goal_pos goal_H) = Ok (Some g') ∧
    g' ∈ [goal_G] ++ [goal_H] ∧
    same_position (goal_pos g') (goal_pos goal_H).
Proof.
  apply (GoalCache_find_after_append [goal_G] "sequential" "interact" ∅
           goal_H).
  intros g0 Hg0. apply list_elem_of_singleton in Hg0. subst g0. reflexivity.
Defined.

(** X19.  Whatever reward a [SpatialGoal] is constructed with through
    the keyword [reward], every reward its [check] returns is the
    module-level default: the constructor does not pass the keyword on,
    so the goal keeps [reward_default] as its template. *)
Theorem SpatialGoal_reward_keyword_is_ignored
    (get_distances : position → position → Q) (env_Agents : list Agent)
    (default_reward : loc) (env_dx : Q) (env_extent : list Q)
    (reward_kw : option loc) (goal_pos0 : position) (goal_radius : option Q)
    (agents : agents_arg) (g : SpatialGoal) (rs : list loc) (idx : list nat) :
  SpatialGoal_init default_reward env_dx env_extent [] reward_kw goal_pos0
                   goal_radius = Ok g →
  SpatialGoal_check get_distances env_Agents g agents = Ok (rs, idx) →
  reward g = default_reward ∧ ∀ l, l ∈ rs → l = default_reward.
Proof.
  unfold SpatialGoal_init. simpl. intros Hinit Hcheck.
  inv_bind Hinit. injection Hinit as <-. simpl.
  split; [reflexivity|].
  apply SpatialGoal_check_Ok_inv in Hcheck. destruct Hcheck as [-> _].
  intros l Hl. apply elem_of_replicate in Hl. simpl in Hl. tauto.
Qed.

Lemma SpatialGoal_reward_keyword_is_ignored_witness :
  reward (mkSpatialGoal 0 [1 # 2] (10 # 100)) = 0 ∧
  ∀ l, l ∈ [0; 0] → l = 0.
Proof.
  apply (SpatialGoal_reward_keyword_is_ignored distance_1D two_agents_on_G
           0 (1 # 100) [0%Q; 1%Q] (Some 7) [1 # 2] None AgentsNone
           (mkSpatialGoal 0 [1 # 2] (10 # 100)) [0; 0] [0; 1]).
  - vm_compute. reflexivity.
  - vm_compute. reflexivity.
Defined.

(** ** Episodes *)

Lemma py_getitem_last {A} (l : list A) (x : A) :
  py_getitem (l ++ [x]) (-1) = Ok x.
Proof.
  unfold py_getitem. rewrite length_app. simpl.
  replace (Z.of_nat (length l + 1) + -1)%Z with (Z.of_nat (length l)) by lia.
  destruct (Z.of_nat (length l) <? 0)%Z eqn:E; [apply Z.ltb_lt in E; lia|].
  rewrite Nat2Z.id. rewrite lookup_app_r by lia.
  rewrite Nat.sub_diag. reflexivity.
Qed.

Lemma py_getitem_last_cons {A} (x : A) (l : list A) :
  ∃ y, last (x :: l) = Some y ∧ py_getitem (x :: l) (-1) = Ok y.
Proof.
  destruct (exists_last (l:=x :: l)) as (l' & y & Heq); [discriminate|].
  rewrite Heq. exists y. split; [apply last_snoc | apply py_getitem_last].
Qed.

(** What the base-class [reset] does to an environment. *)
Lemma TaskEnvironment_reset_frame (teleport : Agent → Agent)
    (e : Env) :
  ∃ e',
    TaskEnvironment_reset teleport e = Ok e' ∧
    episode e' = S (episode e) ∧
    episodes_episode e' = episodes_episode e ++ [S (episode e)] ∧
    env_t e' = env_t e ∧ history_t e' = history_t e ∧
    reward_caches e' = reward_caches e ∧
    goal_cache e' = goal_cache e ∧
    possible_goals e' = possible_goals e ∧
    agent_names e' = agent_names e ∧
    length (Agents e') = length (Agents e) ∧
    match episodes_start e with
    | [] =>
        episodes_start e' = [0%Q] ∧
        episodes_end e' = episodes_end e ∧
        episodes_duration e' = episodes_duration e
    | _ :: _ =>
        ∃ start,
          last (episodes_start e) = Some start ∧
          episodes_end e' = episodes_end e ++ [env_t e] ∧
          episodes_duration e' = episodes_duration e ++ [(env_t e - start)%Q] ∧
          episodes_start e'
            = episodes_start e ++ [(env_t e + env_dt e)%Q]
    end.
Proof.
  destruct e as [dim ext ags t0 dt0 ht tel obs acts caches names
                 eps starts ends durs ep poss gc ng].
  unfold TaskEnvironment_reset. cbn [episodes_start list_truth].
  destruct starts as [|s0 starts].
  - cbn -[Qplus Qminus]. destruct tel; cbn -[Qplus Qminus];
      eexists; (split; [reflexivity|]); cbn -[Qplus Qminus];
      rewrite ?length_map; repeat split; reflexivity.
  - unfold write_end_episode. cbn [episodes_start].
    destruct (py_getitem_last_cons s0 starts) as (y & Hlast & Hget).
    rewrite Hget. cbn -[Qplus Qminus py_getitem last].
    unfold write_start_episode, current_episode_start.
    destruct tel; cbn -[Qplus Qminus py_getitem last];
      rewrite py_getitem_last; cbn -[Qplus Qminus py_getitem last];
      eexists; (split; [reflexivity|]); cbn -[Qplus Qminus py_getitem last];
      rewrite ?length_map; repeat split;
      exists y; repeat split; exact Hlast.
Qed.

(** X20.  The base-class [reset] never fails, on any environment.  It
    raises the episode counter by one and logs it; the first reset opens
    the first episode at time [0]; every later reset closes the running
    episode at the current time [t], with the duration [t] minus its
    start, and opens the next one at [t + dt].  It leaves the clock, the
    ledgers, the goal cache and the agent names as they are. *)
Theorem TaskEnvironment_reset_bookkeeping (teleport : Agent → Agent)
    (e : Env) :
  ∃ e',
    TaskEnvironment_reset teleport e = Ok e' ∧
    episode e' = S (episode e) ∧
    episodes_episode e' = episodes_episode e ++ [S (episode e)] ∧
    env_t e' = env_t e ∧ history_t e' = history_t e ∧
    reward_caches e' = reward_caches e ∧
    goal_cache e' = goal_cache e ∧
    possible_goals e' = possible_goals e ∧
    agent_names e' = agent_names e ∧
    length (Agents e') = length (Agents e) ∧
    match episodes_start e with
    | [] =>
        episodes_start e' = [0%Q] ∧
        episodes_end e' = episodes_end e ∧
        episodes_duration e' = episodes_duration e
    | _ :: _ =>
        ∃ start,
          last (episodes_start e) = Some start ∧
          episodes_end e' = episodes_end e ++ [env_t e] ∧
          episodes_duration e' = episodes_duration e ++ [(env_t e - start)%Q] ∧
          episodes_start e'
            = episodes_start e ++ [(env_t e + env_dt e)%Q]
    end.
Proof. exact (TaskEnvironment_reset_frame teleport e). Qed.

Section ResetLoop.

Variable teleport : Agent → Agent.
Variable random_choice : nat → nat → nat.
Variable ndarray_index : nat → result Z.



(** Without candidates every proposal is "no goal": the loop appends
    [None] as often as it runs. *)
Lemma reset_loop_without_candidates (count : nat) :
  ∀ (e : Env) (draws g : nat),
    possible_goals e = [] →
    reset_loop random_choice ndarray_index e None draws g count
    = Ok (set_goal_cache e
            (mkGoalCache (goals (goal_cache e) ++ replicate count None)
                         (mode (goal_cache e)) (agentmode (goal_cache e))
                         (if_sequential__last_acheived (goal_cache e)))).
Proof.
  induction count as [|count IH]; intros e draws g Hposs.
  - simpl. rewrite app_nil_r.
    destruct e as [? ? ? ? ? ? ? ? ? ? ? ? ? ? ? ? ? gc ?].
    destruct gc. reflexivity.
  - change (reset_loop random_choice ndarray_index e None draws g (S count))
      with (goal ← propose_spatial_goal random_choice ndarray_index e
                     (draws + g);
            reset_loop random_choice ndarray_index
              (set_goal_cache e (GoalCache_append (goal_cache e) goal))
              None draws (S g) count).
    unfold propose_spatial_goal. rewrite Hposs.
    cbn [list_truth mbind result_mbind result_bind].
    rewrite IH by exact Hposs.
    unfold set_goal_cache, GoalCache_append. cbn.
    rewrite <- app_assoc. reflexivity.
Qed.

Lemma TaskEnvironment_reset_n_goals (e e1 : Env) :
  TaskEnvironment_reset teleport e = Ok e1 → n_goals e1 = n_goals e.
Proof.
  unfold TaskEnvironment_reset. intros Hbase.
  inv_bind Hbase.
  unfold write_start_episode in Hbase. inv_bind Hbase.
  injection Hbase as <-. simpl.
  destruct (list_truth (episodes_start e)).
  - unfold write_end_episode in Ha. inv_bind Ha. injection Ha as <-.
    destruct (teleport_on_reset _); reflexivity.
  - injection Ha as <-. destruct (teleport_on_reset _); reflexivity.
Qed.



End ResetLoop.

(** X21.  [reset] without goal locations, with the index conversion
    that NumPy has.  When the environment has a registered candidate and
    at least one goal is to be set, the call raises [TypeError]: the
    candidates are a list, and [_propose_spatial_goal] indexes it with
    the one-element array that [np.random.choice] returns.  Otherwise
    (no candidates, or no goal to set) the call returns the observation
    of the environment it leaves, whose goal cache holds "no goal" once
    for each goal that was to be set ([n_objectives], or [n_goals] by
    default). *)
Theorem reset_without_goal_locations
    (teleport : Agent → Agent) (random_choice : nat → nat → nat)
    (e : Env) (n_objectives : option nat) (draws : nat) :
  match possible_goals e, goals_to_set e None n_objectives with
  | _ :: _, S _ =>
      SpatialGoalEnvironment_reset teleport random_choice
        ndarray_index_refused e None n_objectives draws = Raise TypeError
  | _, ng =>
      ∃ e',
        SpatialGoalEnvironment_reset teleport random_choice
          ndarray_index_refused e None n_objectives draws
        = Ok (TaskEnvironment_get_observation e', e') ∧
        goals (goal_cache e') = replicate ng None
  end.
Proof.
  destruct (TaskEnvironment_reset_frame teleport e)
    as (e1 & Hbase & _ & _ & _ & _ & _ & _ & Hposs & _).
  pose proof (TaskEnvironment_reset_n_goals teleport e e1 Hbase) as Hn.
  unfold SpatialGoalEnvironment_reset. rewrite Hbase.
  cbn [mbind result_mbind result_bind].
  replace (match n_objectives with Some n => n | None => n_goals e1 end)
    with (goals_to_set e None n_objectives)
    by (unfold goals_to_set; rewrite Hn; reflexivity).
  set (e2 := set_goal_cache e1 (GoalCache_clear (goal_cache e1))).
  assert (Hposs2 : possible_goals e2 = possible_goals e) by exact Hposs.
  assert (Hnone : possible_goals e = [] → ∀ ng,
            ∃ e',
              (e3 ← reset_loop random_choice ndarray_index_refused e2 None
                      draws 0 ng;
               Ok (TaskEnvironment_get_observation e3, e3))
              = Ok (TaskEnvironment_get_observation e', e') ∧
              goals (goal_cache e') = replicate ng None).
  { intros Hp ng.
    rewrite (reset_loop_without_candidates random_choice
               ndarray_index_refused ng e2 draws 0)
      by (rewrite Hposs2; exact Hp).
    eexists. split; [reflexivity|]. reflexivity. }
  destruct (possible_goals e) as [|g0 gs] eqn:Hp.
  - destruct (goals_to_set e None n_objectives); apply Hnone; reflexivity.
  - destruct (goals_to_set e None n_objectives) as [|n].
    + eexists. split; reflexivity.
    + simpl. unfold propose_spatial_goal. rewrite Hposs2. reflexivity.
Qed.


(** ** Routing rewards into ledgers *)

Lemma deposit_spec (pairs : list (loc * nat)) :
  ∀ (σ σ' : store) (caches caches' : list RewardCache),
    deposit σ caches pairs = Ok (σ', caches') →
    length caches' = length caches ∧
    ∀ k c, caches !! k = Some c →
      ∃ c' added,
        caches' !! k = Some c' ∧
        cache c' = cache c ++ added ∧
        length added = length (filter (λ p : loc * nat, p.2 = k) pairs) ∧
        verbose c' = verbose c.
Proof.
  induction pairs as [|[reward0 agent] pairs IH];
    intros σ σ' caches caches' H; simpl in H.
  - injection H as <- <-. split; [reflexivity|].
    intros k c Hk. exists c, []. rewrite app_nil_r. auto.
  - inv_bind H. rename a into c0, Ha into Hget.
    assert (Hc0 : caches !! agent = Some c0).
    { unfold py_getitem in Hget.
      destruct (Z.of_nat agent <? 0)%Z eqn:E; [apply Z.ltb_lt in E; lia|].
      rewrite E in Hget. rewrite Nat2Z.id in Hget.
      destruct (caches !! agent); [congruence | discriminate Hget]. }
    destruct (copy σ reward0) as [l' σ1] eqn:Hcopy. simpl in H.
    set (c1 := mkRewardCache (cache c0 ++ [l']) (verbose c0)) in *.
    assert (Hcache1 : cache c1 = cache c0 ++ [l']) by reflexivity.
    assert (Hverb1 : verbose c1 = verbose c0) by reflexivity.
    apply IH in H. destruct H as [Hlen Hall].
    rewrite length_insert in Hlen. split; [exact Hlen|].
    intros k c Hk. rewrite filter_cons. simpl.
    destruct (decide (agent = k)) as [->|Hne].
    + assert (c = c0) as -> by congruence.
      destruct (Hall k c1) as (c' & added & Hk' & Hc' & Hadd & Hv).
      { apply list_lookup_insert_eq. apply lookup_lt_Some in Hc0. exact Hc0. }
      exists c', (l' :: added). split; [exact Hk'|].
      split; [rewrite Hc', Hcache1, <- app_assoc; reflexivity|].
      split; [simpl; lia | congruence].
    + destruct (Hall k c) as (c' & added & Hk' & Hc' & Hadd & Hv).
      { rewrite list_lookup_insert_ne by exact Hne. exact Hk. }
      exists c', added. auto.
Qed.

(** The deposit loop, reward by reward: [news] lists, in the order of
    the pairs, the references that the loop stores. *)
Lemma deposit_copies (pairs : list (loc * nat)) :
  ∀ (σ σ' : store) (caches caches' : list RewardCache),
    (∀ p, p ∈ pairs → is_Some (rewards σ !! p.1)) →
    deposit σ caches pairs = Ok (σ', caches') →
    ∃ news : list loc,
      length news = length pairs ∧
      NoDup news ∧
      (∀ l, l ∈ news → rewards σ !! l = None) ∧
      (∀ i l p, news !! i = Some l → pairs !! i = Some p →
                rewards σ' !! l = rewards σ !! p.1) ∧
      (∀ l, l ∉ news → rewards σ' !! l = rewards σ !! l) ∧
      histories σ' = histories σ ∧
      ∀ k c, caches !! k = Some c →
        ∃ c',
          caches' !! k = Some c' ∧
          cache c' = cache c
                     ++ map fst (filter (λ q : loc * nat, q.2 = k)
                                        (zip news (map snd pairs))) ∧
          verbose c' = verbose c.
Proof.
  induction pairs as [|[reward0 agent] pairs IH];
    intros σ σ' caches caches' Hin H; simpl in H.
  - injection H as <- <-. exists []. split; [reflexivity|].
    split; [apply NoDup_nil_2|].
    split; [intros l Hl; inversion Hl|].
    split; [intros i l p Hl; discriminate Hl|].
    split; [reflexivity|]. split; [reflexivity|].
    intros k c Hk. exists c. simpl. rewrite app_nil_r. auto.
  - inv_bind H. rename a into c0, Ha into Hget.
    assert (Hc0 : caches !! agent = Some c0).
    { unfold py_getitem in Hget.
      destruct (Z.of_nat agent <? 0)%Z eqn:E; [apply Z.ltb_lt in E; lia|].
      rewrite E in Hget. rewrite Nat2Z.id in Hget.
      destruct (caches !! agent); [congruence | discriminate Hget]. }
    destruct (Hin (reward0, agent)) as [v Hv]; [left|]. simpl in Hv.
    destruct (copy_allocates σ reward0 v Hv) as (l' & Hcopy & Hfresh).
    unfold RewardCache_append in H. rewrite Hcopy in H.
    set (σ1 := mkStore (<[l' := v]> (rewards σ)) (histories σ)) in *.
    set (c1 := mkRewardCache (cache c0 ++ [l']) (verbose c0)) in *.
    assert (Hold : ∀ p, p ∈ pairs → rewards σ1 !! p.1 = rewards σ !! p.1).
    { intros p Hp. simpl. apply lookup_insert_ne. intros ->.
      destruct (Hin p) as [w Hw]; [right; exact Hp|]. congruence. }
    apply IH in H.
    2:{ intros p Hp. rewrite (Hold p Hp). apply Hin. right. exact Hp. }
    destruct H as (news & Hlen & Hnd & Hnew & Hcontent & Hother & Hhist & Hled).
    assert (Hl'1 : rewards σ1 !! l' = Some v) by apply lookup_insert_eq.
    assert (Hnotin : l' ∉ news).
    { intros Hl'. specialize (Hnew l' Hl'). congruence. }
    exists (l' :: news). split; [simpl; lia|].
    split; [apply NoDup_cons; auto|].
    split.
    { intros l Hl. apply elem_of_cons in Hl. destruct Hl as [->|Hl].
      - exact Hfresh.
      - specialize (Hnew l Hl). simpl in Hnew.
        apply lookup_insert_None in Hnew. tauto. }
    split.
    { intros [|i] l p Hl Hp; simpl in Hl, Hp.
      - injection Hl as <-. injection Hp as <-. simpl.
        rewrite (Hother l' Hnotin), Hl'1, Hv. reflexivity.
      - rewrite (Hcontent i l p Hl Hp). apply Hold.
        apply list_elem_of_lookup. eauto. }
    split.
    { intros l Hl. rewrite Hother.
      - simpl. apply lookup_insert_ne. intros ->. apply Hl. left.
      - intros Hl'. apply Hl. right. exact Hl'. }
    split; [exact Hhist|].
    intros k c Hk. cbn [map snd zip zip_with]. rewrite filter_cons. simpl.
    destruct (decide (agent = k)) as [->|Hne].
    + assert (c = c0) as -> by congruence.
      destruct (Hled k c1) as (c' & Hk' & Hc' & Hverb).
      { apply list_lookup_insert_eq. apply lookup_lt_Some in Hc0. exact Hc0. }
      exists c'. split; [exact Hk'|].
      split; [rewrite Hc'; simpl; rewrite <- app_assoc; reflexivity|].
      exact Hverb.
    + destruct (Hled k c) as (c' & Hk' & Hc' & Hverb).
      { rewrite list_lookup_insert_ne by exact Hne. exact Hk. }
      exists c'. auto.
Qed.

(** X23.  The deposit loop of [_is_terminal_state], for rewards that are
    objects of the store.  For every pair of a reward and an agent index
    it stores one new object, different from every object that existed
    and from the other new ones, with the attributes of the paired
    reward, and appends the reference to the ledger of that index and to
    no other: every ledger ends as what it held followed by the copies
    of the rewards paired with its index, in the order of the pairs.
    The rewards that were passed and all other objects are unchanged. *)
Theorem deposit_routes_rewards (σ σ' : store)
    (caches caches' : list RewardCache) (pairs : list (loc * nat)) :
  (∀ p, p ∈ pairs → is_Some (rewards σ !! p.1)) →
  deposit σ caches pairs = Ok (σ', caches') →
  ∃ news : list loc,
    length news = length pairs ∧
    NoDup news ∧
    (∀ l, l ∈ news → rewards σ !! l = None) ∧
    (∀ i l p, news !! i = Some l → pairs !! i = Some p →
              rewards σ' !! l = rewards σ !! p.1) ∧
    (∀ l, l ∉ news → rewards σ' !! l = rewards σ !! l) ∧
    histories σ' = histories σ ∧
    length caches' = length caches ∧
    ∀ k c, caches !! k = Some c →
      ∃ c',
        caches' !! k = Some c' ∧
        cache c' = cache c
                   ++ map fst (filter (λ q : loc * nat, q.2 = k)
                                      (zip news (map snd pairs))) ∧
        verbose c' = verbose c.
Proof.
  intros Hin H.
  destruct (deposit_copies pairs σ σ' caches caches' Hin H)
    as (news & H1 & H2 & H3 & H4 & H5 & H6 & H7).
  apply deposit_spec in H. destruct H as [Hlen _].
  exists news. auto 10.
Qed.

Lemma deposit_routes_rewards_witness :
  ∃ news : list loc,
    length news = length [(0, 1); (0, 1)] ∧
    NoDup news ∧
    (∀ l, l ∈ news → rewards store_default !! l = None) ∧
    (∀ i l p, news !! i = Some l → [(0, 1); (0, 1)] !! i = Some p →
              rewards (ok_or (deposit store_default
                                [mkRewardCache [] false;
                                 mkRewardCache [] false]
                                [(0, 1); (0, 1)])
                             (empty_store, [])).1 !! l
              = rewards store_default !! p.1) ∧
    (∀ l, l ∉ news →
          rewards (ok_or (deposit store_default
                            [mkRewardCache [] false; mkRewardCache [] false]
                            [(0, 1); (0, 1)])
                         (empty_store, [])).1 !! l
          = rewards store_default !! l) ∧
    histories (ok_or (deposit store_default
                        [mkRewardCache [] false; mkRewardCache [] false]
                        [(0, 1); (0, 1)])
                     (empty_store, [])).1
      = histories store_default ∧
    length (ok_or (deposit store_default
                     [mkRewardCache [] false; mkRewardCache [] false]
                     [(0, 1); (0, 1)])
                  (empty_store, [])).2
      = length [mkRewardCache [] false; mkRewardCache [] false] ∧
    ∀ k c, [mkRewardCache [] false; mkRewardCache [] false] !! k = Some c →
      ∃ c',
        (ok_or (deposit store_default
                  [mkRewardCache [] false; mkRewardCache [] false]
                  [(0, 1); (0, 1)])
               (empty_store, [])).2 !! k = Some c' ∧
        cache c' = cache c
                   ++ map fst (filter (λ q : loc * nat, q.2 = k)
                                      (zip news (map snd [(0, 1); (0, 1)]))) ∧
        verbose c' = verbose c.
Proof.
  apply (deposit_routes_rewards store_default
           (ok_or (deposit store_default
                     [mkRewardCache [] false; mkRewardCache [] false]
                     [(0, 1); (0, 1)])
                  (empty_store, [])).1
           [mkRewardCache [] false; mkRewardCache [] false]
           (ok_or (deposit store_default
                     [mkRewardCache [] false; mkRewardCache [] false]
                     [(0, 1); (0, 1)])
                  (empty_store, [])).2
           [(0, 1); (0, 1)]).
  - intros p Hp. apply elem_of_cons in Hp. destruct Hp as [->|Hp].
    + eexists. reflexivity.
    + apply list_elem_of_singleton in Hp. subst p. eexists. reflexivity.
  - vm_compute. reflexivity.
Defined.

(** An agent index beyond the ledgers makes the deposit fail. *)
Lemma deposit_out_of_range (σ : store) (caches : list RewardCache)
    (reward0 : loc) (agent : nat) (pairs : list (loc * nat)) :
  length caches ≤ agent →
  deposit σ caches ((reward0, agent) :: pairs) = Raise IndexError.
Proof.
  intros Hlen. simpl. unfold py_getitem.
  destruct (Z.of_nat agent <? 0)%Z eqn:E; [apply Z.ltb_lt in E; lia|].
  rewrite E, Nat2Z.id, lookup_ge_None_2 by lia. reflexivity.
Qed.

(** ** One step *)


(** ** Construction of the environment *)

(** X25.  [SpatialGoalEnvironment.__init__] never returns an
    environment, whatever its arguments: when there is a candidate
    position the goals are built from [self.goalkws] before that
    attribute is assigned, and when everything before it succeeds the
    goal cache is made by [GoalCache()] without the required [env]
    ([TypeError]). *)
Theorem SpatialGoalEnvironment_init_never_returns
    (py_int : string → result Z) (np_random : nat → nat → list Q)
    (teleport : Agent → Agent) (random_choice : nat → nat → nat)
    (ndarray_index : nat → result Z)
    (default_reward : loc) (dimensionality0 : string) (env_extent : list Q)
    (env_dx dt0 : Q) (teleport_on_reset0 : bool)
    (attr_goalkws : option goalkws_dict) (reward_arg : loc)
    (goalkws_arg : goalkws_dict) (possible_goal_pos : possible_goal_pos_arg)
    (current_goal_state : option position) (n_goals0 : nat) :
  raises (SpatialGoalEnvironment_init py_int np_random teleport
            random_choice ndarray_index default_reward dimensionality0
            env_extent env_dx dt0 teleport_on_reset0 attr_goalkws
            reward_arg goalkws_arg possible_goal_pos current_goal_state
            n_goals0) ∧
  SpatialGoalEnvironment_init py_int np_random teleport
    random_choice ndarray_index default_reward dimensionality0
    env_extent env_dx dt0 teleport_on_reset0 None
    reward_arg goalkws_arg (PossibleList []) current_goal_state n_goals0
  = Raise TypeError.
Proof.
  split; [|reflexivity].
  unfold SpatialGoalEnvironment_init.
  destruct (init_poss_goal_positions _ _ _ _ _ _ _) as [gs|err]; simpl;
    eexists; reflexivity.
Qed.

(** With the attribute [goalkws] not yet assigned, as in this file, a
    non-empty list of candidate positions fails on that attribute. *)
Lemma init_poss_goal_positions_without_goalkws
    (py_int : string → result Z) (np_random : nat → nat → list Q)
    (default_reward : loc) (env_dx : Q) (env_extent : list Q)
    (p : position) (ps : list position) :
  init_poss_goal_positions py_int np_random default_reward env_dx env_extent
                           None (PossibleList (p :: ps))
  = Raise AttributeError.
Proof. reflexivity. Qed.

(** ** Enlisting agents *)

Lemma enlist_all_spec (maxvel : Q) (D : nat) (lows highs : list Q)
    (nas : list (string * Agent)) :
  ∀ e : Env,
    dimensionality_D (dimensionality e) = Ok D →
    lows_highs (extent_pairs (extent e)) = Ok (lows, highs) →
    ∃ e',
      enlist_all maxvel e nas = Ok e' ∧
      Agents e' = Agents e
                  ++ enlisted (env_t e) (length (reward_caches e))
                              (map snd nas) ∧
      reward_caches e'
        = reward_caches e ++ replicate (length nas) (mkRewardCache [] false) ∧
      agent_names e' = agent_names e ++ map fst nas ∧
      env_t e' = env_t e ∧ env_dt e' = env_dt e ∧
      goal_cache e' = goal_cache e ∧
      (∀ name, name ∈ map fst nas →
         action_spaces e' !! name
           = Some (mkBox (replicate D 0%Q) (replicate D maxvel)) ∧
         observation_spaces e' !! name = Some (mkBox lows highs)) ∧
      (∀ name, name ∉ map fst nas →
         action_spaces e' !! name = action_spaces e !! name ∧
         observation_spaces e' !! name = observation_spaces e !! name).
Proof.
  induction nas as [|[name agent] nas IH]; intros e HD Hext.
  - exists e. simpl. rewrite !app_nil_r.
    do 7 (split; [reflexivity|]).
    split; [intros nm Hnm; inversion Hnm | intros nm _; split; reflexivity].
  - change (enlist_all maxvel e ((name, agent) :: nas)) with
      (e0 ← enlist maxvel e (name, agent); enlist_all maxvel e0 nas).
    unfold enlist. rewrite HD. cbn [mbind result_mbind result_bind].
    rewrite Hext. cbn [mbind result_mbind result_bind].
    set (e1 := mkEnv _ _ _ _ _ _ _ _ _ _ _ _ _ _ _ _ _ _ _).
    destruct (IH e1 HD Hext)
      as (e' & Hall & Hags & Hcaches & Hnames & Ht & Hdt & Hgc & Hin & Hout).
    exists e'. split; [exact Hall|].
    rewrite Hags, Hcaches, Hnames, Ht, Hdt, Hgc. simpl.
    rewrite length_app, <- !app_assoc. simpl.
    replace (length (reward_caches e) + 1) with (S (length (reward_caches e)))
      by lia.
    do 6 (split; [reflexivity|]).
    split.
    + intros nm Hnm. apply elem_of_cons in Hnm.
      destruct (decide (nm ∈ map fst nas)) as [Hlater|Hlater];
        [apply Hin; exact Hlater|].
      destruct Hnm as [->|Hnm]; [|contradiction].
      destruct (Hout name Hlater) as [-> ->]. simpl.
      split; apply lookup_insert_eq.
    + intros nm Hnm.
      assert (Hlater : nm ∉ map fst nas).
      { intros Hl. apply Hnm. right. exact Hl. }
      assert (Hne : name ≠ nm).
      { intros ->. apply Hnm. left. }
      destruct (Hout nm Hlater) as [-> ->]. simpl.
      split; apply lookup_insert_ne; exact Hne.
Qed.

Lemma zip_fst_snd {A B} (l : list A) (k : list B) :
  length l = length k → map fst (zip l k) = l ∧ map snd (zip l k) = k.
Proof.
  revert k. induction l as [|x l IH]; intros [|y k] Hlen; simpl in *;
    try discriminate; [auto|].
  destruct (IH k) as [-> ->]; [lia | auto].
Qed.

Lemma add_agents_spec (e : Env) (agent : Agent) (agents : list Agent)
    (maxvel : Q) (D : nat) (lows highs : list Q) :
  dimensionality_D (dimensionality e) = Ok D →
  lows_highs (extent_pairs (extent e)) = Ok (lows, highs) →
  let new_names := map (λ i, agent_name (length (Agents e) + i))
                       (seq 0 (length (agent :: agents))) in
  ∃ e',
    TaskEnvironment_add_agents e (AddList (agent :: agents)) None maxvel
      = Ok e' ∧
    Agents e' = Agents e
                ++ enlisted (env_t e) (length (reward_caches e))
                            (agent :: agents) ∧
    reward_caches e'
      = reward_caches e
        ++ replicate (length (agent :: agents)) (mkRewardCache [] false) ∧
    agent_names e' = agent_names e ++ new_names ∧
    (∀ name, name ∈ new_names →
       action_spaces e' !! name
         = Some (mkBox (replicate D 0%Q) (replicate D maxvel)) ∧
       observation_spaces e' !! name = Some (mkBox lows highs)).
Proof.
  intros HD Hext new_names.
  assert (Hlen : length new_names = length (agent :: agents)).
  { unfold new_names. rewrite length_map, length_seq. reflexivity. }
  destruct (zip_fst_snd new_names (agent :: agents) Hlen) as [Hfst Hsnd].
  destruct (enlist_all_spec maxvel D lows highs
              (zip new_names (agent :: agents)) e HD Hext)
    as (e' & Hall & Hags & Hcaches & Hnames & _ & _ & _ & Hin & _).
  exists e'. split; [exact Hall|].
  rewrite Hsnd in Hags. rewrite Hfst in Hnames, Hin.
  rewrite length_zip, Hlen, Nat.min_id in Hcaches. auto.
Qed.

Lemma enlisted_pos_dt (now : Q) (ags : list Agent) :
  ∀ k, map pos (enlisted now k ags) = map pos ags ∧
       map ag_dt (enlisted now k ags) = map ag_dt ags.
Proof.
  induction ags as [|a ags IH]; intros k; simpl; [auto|].
  destruct (IH (S k)) as [-> ->]. auto.
Qed.

(** X26.  On an environment whose dimensionality starts with a digit
    and whose extent lists a low and a high bound per axis,
    [add_agents] of a non-empty list of agents without names succeeds.
    It appends the agents in order, at the positions and with the time
    steps they have; it appends one new empty ledger per agent; it
    names the agents ["agent_k"] counting on from the number of agents
    already enlisted, and gives each name an action box [[0, maxvel]]
    per dimension and the observation box of the extent. *)
Theorem add_agents_enlists (e : Env) (agent : Agent) (agents : list Agent)
    (maxvel : Q) (D : nat) (lows highs : list Q) :
  dimensionality_D (dimensionality e) = Ok D →
  lows_highs (extent_pairs (extent e)) = Ok (lows, highs) →
  ∃ e',
    TaskEnvironment_add_agents e (AddList (agent :: agents)) None maxvel
      = Ok e' ∧
    map pos (Agents e') = map pos (Agents e) ++ map pos (agent :: agents) ∧
    map ag_dt (Agents e')
      = map ag_dt (Agents e) ++ map ag_dt (agent :: agents) ∧
    reward_caches e'
      = reward_caches e
        ++ replicate (length (agent :: agents)) (mkRewardCache [] false) ∧
    agent_names e'
      = agent_names e
        ++ map (λ i, agent_name (length (Agents e) + i))
               (seq 0 (length (agent :: agents))) ∧
    (∀ i, i < length (agent :: agents) →
       action_spaces e' !! agent_name (length (Agents e) + i)
         = Some (mkBox (replicate D 0%Q) (replicate D maxvel)) ∧
       observation_spaces e' !! agent_name (length (Agents e) + i)
         = Some (mkBox lows highs)).
Proof.
  intros HD Hext.
  destruct (add_agents_spec e agent agents maxvel D lows highs HD Hext)
    as (e' & Hadd & Hags & Hcaches & Hnames & Hboxes).
  destruct (enlisted_pos_dt (env_t e) (agent :: agents)
              (length (reward_caches e))) as [Hpos Hdt].
  exists e'. split; [exact Hadd|].
  split; [rewrite Hags, map_app, Hpos; reflexivity|].
  split; [rewrite Hags, map_app, Hdt; reflexivity|].
  split; [exact Hcaches|]. split; [exact Hnames|].
  intros i Hi. apply Hboxes. apply list_elem_of_In, in_map_iff.
  exists i. split; [reflexivity|]. apply in_seq. lia.
Qed.

Lemma add_agents_enlists_witness :
  ∃ e',
    TaskEnvironment_add_agents env_1D (AddList (slow_agent :: [])) None 50
      = Ok e' ∧
    map pos (Agents e')
      = map pos (Agents env_1D) ++ map pos (slow_agent :: []) ∧
    map ag_dt (Agents e')
      = map ag_dt (Agents env_1D) ++ map ag_dt (slow_agent :: []) ∧
    reward_caches e'
      = reward_caches env_1D
        ++ replicate (length (slow_agent :: [])) (mkRewardCache [] false) ∧
    agent_names e'
      = agent_names env_1D
        ++ map (λ i, agent_name (length (Agents env_1D) + i))
               (seq 0 (length (slow_agent :: []))) ∧
    (∀ i, i < length (slow_agent :: []) →
       action_spaces e' !! agent_name (length (Agents env_1D) + i)
         = Some (mkBox (replicate 1 0%Q) (replicate 1 50%Q)) ∧
       observation_spaces e' !! agent_name (length (Agents env_1D) + i)
         = Some (mkBox [0%Q] [1%Q])).
Proof.
  apply (add_agents_enlists env_1D slow_agent [] 50 1 [0%Q] [1%Q]).
  - reflexivity.
  - reflexivity.
Defined.

Lemma py_getitem_replicate {A} (n k : nat) (x : A) :
  k < n → py_getitem (replicate n x) (Z.of_nat k) = Ok x.
Proof.
  intros Hk. unfold py_getitem.
  destruct (Z.of_nat k <? 0)%Z eqn:E; [apply Z.ltb_lt in E; lia|].
  rewrite E, Nat2Z.id, lookup_replicate_2 by exact Hk. reflexivity.
Qed.

Lemma get_reward_fresh (σ : store) (now : Q) (m : nat) (e : Env)
    (ags : list Agent) :
  reward_caches e = replicate m (mkRewardCache [] false) →
  ∀ (k : nat) (names : list string),
    length names = length ags → k + length ags ≤ m →
    result_mapM
      (λ na : string * Agent,
         match ag_reward na.2 with
         | None => Raise AttributeError
         | Some j =>
             c ← py_getitem (reward_caches e) (Z.of_nat j);
             total ← RewardCache_get_total σ c;
             Ok (na.1, total)
         end)
      (zip names (enlisted now k ags))
    = Ok (map (λ name, (name, 0%Q)) names).
Proof.
  intros Hcaches. induction ags as [|a ags IH]; intros k names Hlen Hk.
  - destruct names; [reflexivity | discriminate Hlen].
  - destruct names as [|name names]; [discriminate Hlen|].
    simpl in *. rewrite Hcaches, py_getitem_replicate by lia. simpl.
    rewrite <- Hcaches, (IH (S k) names) by lia. reflexivity.
Qed.

(** X27.  Right after [add_agents] on an environment that had no agents,
    [get_reward] reports the total [0] for every agent and
    [get_observation] the position of every agent, both keyed by the
    generated names in the order of the agents. *)
Theorem fresh_agents_have_no_reward (σ : store) (e : Env) (agent : Agent)
    (agents : list Agent) (maxvel : Q) (D : nat) (lows highs : list Q) :
  dimensionality_D (dimensionality e) = Ok D →
  lows_highs (extent_pairs (extent e)) = Ok (lows, highs) →
  Agents e = [] → reward_caches e = [] → agent_names e = [] →
  ∃ e',
    TaskEnvironment_add_agents e (AddList (agent :: agents)) None maxvel
      = Ok e' ∧
    TaskEnvironment_get_reward e' σ
      = Ok (map (λ i, (agent_name i, 0%Q))
                (seq 0 (length (agent :: agents)))) ∧
    TaskEnvironment_get_observation e'
      = zip (map agent_name (seq 0 (length (agent :: agents))))
            (map pos (agent :: agents)).
Proof.
  intros HD Hext Hags0 Hcaches0 Hnames0.
  destruct (add_agents_spec e agent agents maxvel D lows highs HD Hext)
    as (e' & Hadd & Hags & Hcaches & Hnames & _).
  rewrite Hags0, Hcaches0 in Hags. rewrite Hcaches0 in Hcaches.
  rewrite Hnames0, Hags0 in Hnames. simpl in Hags, Hcaches, Hnames.
  exists e'. split; [exact Hadd|]. split.
  - unfold TaskEnvironment_get_reward. rewrite Hags, Hnames.
    change (mkAgent (pos agent) (ag_dt agent) (env_t e) (Some 0)
              :: enlisted (env_t e) 1 agents)
      with (enlisted (env_t e) 0 (agent :: agents)).
    change (agent_name 0 :: map (λ i, agent_name i) (seq 1 (length agents)))
      with (map agent_name (seq 0 (length (agent :: agents)))).
    rewrite (get_reward_fresh σ (env_t e) (S (length agents)) e'
               (agent :: agents) Hcaches 0).
    + rewrite map_map. reflexivity.
    + rewrite length_map, length_seq. reflexivity.
    + simpl. lia.
  - unfold TaskEnvironment_get_observation. rewrite Hags, Hnames.
    f_equal. simpl. f_equal.
    clear. generalize 1. induction agents as [|a ags IH]; intros k;
      simpl; [reflexivity|]. f_equal. apply IH.
Qed.

Lemma fresh_agents_have_no_reward_witness :
  ∃ e',
    TaskEnvironment_add_agents env_1D (AddList (slow_agent :: [])) None 50
      = Ok e' ∧
    TaskEnvironment_get_reward e' store_default
      = Ok (map (λ i, (agent_name i, 0%Q))
                (seq 0 (length (slow_agent :: [])))) ∧
    TaskEnvironment_get_observation e'
      = zip (map agent_name (seq 0 (length (slow_agent :: []))))
            (map pos (slow_agent :: [])).
Proof.
  apply (fresh_agents_have_no_reward store_default env_1D slow_agent []
           50 1 [0%Q] [1%Q]); reflexivity.
Defined.
